(** * Wallet gains tracker

    A shallow embedding of the [SolanaWalletTracker] class and of the
    [getWalletGains] request handler, followed by the properties of the
    price oracle, the eligibility filter, the cost-basis store, the gains
    report and the handler. *)

From Stdlib Require Import ZArith Lia List Bool Floats.
From stdpp Require Import gmap strings.
Import ListNotations.

Local Open Scope string_scope.
Local Open Scope list_scope.
Local Open Scope Z_scope.

(** ** JavaScript numbers

    A JavaScript number is an IEEE 754 binary64 value, which is what the
    primitive [float] type is. *)

Module JSNumber.

Definition number : Type := float.

(** [x > 0] *)
Definition gt0 (x : number) : bool := (0 <? x)%float.

(** [x <= 0] *)
Definition le0 (x : number) : bool := (x <=? 0)%float.

(** [ToBoolean] on a number: [+0], [-0] and [NaN] are falsy. *)
Definition ToBoolean (x : number) : bool :=
  negb (x =? 0)%float && (x =? x)%float.

(** [x || 0] where [x] is a number. *)
Definition or_zero (x : number) : number :=
  if ToBoolean x then x else 0%float.

End JSNumber.

Import JSNumber.

(** ** Outcomes of fallible calls

    A call either returns a value or throws an [Error]; only the error's
    [message] is ever inspected by the program. *)

Inductive outcome (A : Type) : Type :=
| Returns (a : A)
| Throws (message : string).
Arguments Returns {A} a.
Arguments Throws {A} message.

(** ** The cache dependency *)

Module NodeCache.

(** Modelled from the spec: the [node-cache] package is a dependency
    whose code is not part of the repository.  Section 3 of the
    specification gives its contract (a stored value carries an expiry
    timestamp, a read after it is a miss, a write resets the window);
    the representation below follows the package: [t] is the expiry in
    milliseconds, [0] meaning that the entry never expires. *)
Record entry (V : Type) : Type := Entry { v : V; t : Z }.
Arguments Entry {V} v t.
Arguments v {V} e.
Arguments t {V} e.

Section Ops.

Context {V : Type}.

(** Modelled from the spec: an entry is live at [now] unless it has an
    expiry that lies strictly before [now]. *)
Definition check (now : Z) (e : entry V) : bool :=
  negb (negb (t e =? 0) && (t e <? now)).

(** Modelled from the spec: expiry of a value written at [now] under
    the cache's [stdTTL] (in seconds). *)
Definition livetime (now stdTTL : Z) : Z :=
  if stdTTL =? 0 then 0 else now + stdTTL * 1000.

(** Modelled from the spec: [get(key)] yields the live value, or
    [undefined] ([None]), dropping an expired entry. *)
Definition get (now : Z) (key : string) (data : gmap string (entry V))
  : option V * gmap string (entry V) :=
  match data !! key with
  | Some e => if check now e then (Some (v e), data) else (None, delete key data)
  | None => (None, data)
  end.

(** Modelled from the spec: [set(key, value)] stores the value with a
    fresh expiry. *)
Definition set (now stdTTL : Z) (key : string) (value : V)
    (data : gmap string (entry V)) : gmap string (entry V) :=
  <[key := Entry value (livetime now stdTTL)]> data.

End Ops.

End NodeCache.

(** ** Data model *)

(** One parsed token account, as the chain client returns it: the fields
    [account.data.parsed.info.mint] and [...tokenAmount.uiAmount]. *)
Record TokenAccount : Type := {
  mint : string;
  uiAmount : number
}.

(** The object built for each holding by [calculateGains]. *)
Record GainResult : Type := {
  token : string;
  currentPrice : number;
  amount : number;
  costBasis : number;
  totalValue : number;
  unrealizedGain : number
}.

(** The three entries of [priceSources], and the three signal methods. *)
Inductive PriceSource : Type := CoinGecko | DexScreener | Raydium.

Inductive Signal : Type := TokenVolume | SocialTraction | TokenAge.

Inductive LogLevel : Type := info | warn | error.

(** What the program does to its collaborators, in the order it does it. *)
Inductive Event : Type :=
| Log (level : LogLevel) (message : string)
| Fetch (source : PriceSource) (mintAddress : string)
| Check (signal : Signal) (mintAddress : string)
| GetParsedTokenAccountsByOwner (owner : string)
| CalculateGains (address : string).

(** What [JSON.parse] makes of the cost-basis file when it accepts it:
    the literal [null], or an object of numeric entries. *)
Inductive JsonDoc : Type :=
| JNull
| JRecords (entries : gmap string number).

(** The collaborators the tracker consumes.  [quote] is the HTTP request
    of a price source followed by the walk to the price field of its
    payload ([None] when the optional chain ends in [undefined]);
    [signal] stands for the three [_check...] methods, which the class
    ships as placeholders; [JSON_parse] is [None] on a text that
    [JSON.parse] rejects; [writeFile_result] is how writing a text to
    [cost-basis.json] ends. *)
Record World : Type := {
  cacheTTL_price : Z;
  cacheTTL_metadata : Z;
  PublicKey : string -> outcome string;
  getParsedTokenAccountsByOwner : string -> outcome (list TokenAccount);
  quote : PriceSource -> string -> outcome (option number);
  signal : Signal -> string -> outcome bool;
  JSON_parse : string -> option JsonDoc;
  writeFile_result : string -> outcome unit
}.

(** The mutable parts of a tracker: its two caches in use, the content of
    [cost-basis.json] ([None] when reading it fails), and the record of
    what has been done so far (oldest first). *)
Record State : Type := {
  priceCache : gmap string (NodeCache.entry number);
  tokenMetadataCache : gmap string (NodeCache.entry bool);
  costBasisFile : option string;
  trace : list Event
}.

Definition with_priceCache (c : gmap string (NodeCache.entry number)) (st : State) : State :=
  {| priceCache := c; tokenMetadataCache := tokenMetadataCache st;
     costBasisFile := costBasisFile st; trace := trace st |}.

Definition with_tokenMetadataCache (c : gmap string (NodeCache.entry bool)) (st : State) : State :=
  {| priceCache := priceCache st; tokenMetadataCache := c;
     costBasisFile := costBasisFile st; trace := trace st |}.

Definition with_costBasisFile (f : option string) (st : State) : State :=
  {| priceCache := priceCache st; tokenMetadataCache := tokenMetadataCache st;
     costBasisFile := f; trace := trace st |}.

Definition with_trace (tr : list Event) (st : State) : State :=
  {| priceCache := priceCache st; tokenMetadataCache := tokenMetadataCache st;
     costBasisFile := costBasisFile st; trace := tr |}.

(** ** Computations: state passing with exceptions *)

Definition M (A : Type) : Type := State -> outcome A * State.

Definition ret {A} (a : A) : M A := fun st => (Returns a, st).

Definition throw {A} (message : string) : M A := fun st => (Throws message, st).

Definition bind {A B} (m : M A) (k : A -> M B) : M B :=
  fun st =>
    match m st with
    | (Returns a, st') => k a st'
    | (Throws message, st') => (Throws message, st')
    end.

(** [try { body } catch (error) { handler(error.message) }] *)
Definition try_catch {A} (body : M A) (handler : string -> M A) : M A :=
  fun st =>
    match body st with
    | (Returns a, st') => (Returns a, st')
    | (Throws message, st') => handler message st'
    end.

(** An outcome that is already known, the state left alone. *)
Definition lift {A} (o : outcome A) : M A := fun st => (o, st).

Definition emit (e : Event) : M unit :=
  fun st => (Returns tt, with_trace (trace st ++ [e]) st).

(** A call to a collaborator: recorded, then its outcome. *)
Definition call {A} (e : Event) (o : outcome A) : M A :=
  fun st => (o, with_trace (trace st ++ [e]) st).

Declare Scope tracker_scope.
Delimit Scope tracker_scope with tracker.
Notation "x <- m ;; k" := (bind m (fun x => k))
  (at level 100, m at next level, right associativity) : tracker_scope.
Notation "m ;; k" := (bind m (fun _ => k))
  (at level 100, right associativity) : tracker_scope.
Local Open Scope tracker_scope.

(** ** Promises

    The effects of an [async] function are performed when it is called,
    one call after the other; what remains of it is a promise that is
    already settled.  This is one schedule of the cooperative execution:
    the calls made by one request do not read what another of its calls
    writes, except through the caches, and a cache only short-cuts a
    computation that would yield the value it holds. *)

Inductive Promise (A : Type) : Type := promise (settled : outcome A).
Arguments promise {A} settled.

Definition settled {A} (p : Promise A) : outcome A :=
  match p with promise o => o end.

(** Calling an [async] function never throws: it hands back a promise. *)
Definition async {A} (body : M A) : M (Promise A) :=
  fun st => let (o, st') := body st in (Returns (promise o), st').

(** [ToBoolean] of a promise: it is an object, and objects are truthy. *)
Definition ToBoolean_object {A} (p : Promise A) : bool := true.

(** [Promise.all]: the values in order, or the first rejection. *)
Fixpoint Promise_all {A} (ps : list (Promise A)) : outcome (list A) :=
  match ps with
  | [] => Returns []
  | p :: rest =>
      match settled p with
      | Throws message => Throws message
      | Returns a =>
          match Promise_all rest with
          | Returns xs => Returns (a :: xs)
          | Throws message => Throws message
          end
      end
  end.

(** [array.map(callback)] where the callback has effects. *)
Fixpoint Array_map {A B} (callback : A -> M B) (xs : list A) : M (list B) :=
  match xs with
  | [] => ret []
  | x :: rest =>
      y <- callback x ;;
      ys <- Array_map callback rest ;;
      ret (y :: ys)
  end.

(** [array.filter(callback)]: every callback is run, and an element is
    kept when what its callback returned is truthy. *)
Fixpoint Array_filter {A B} (ToBoolean : B -> bool) (callback : A -> M B)
    (xs : list A) : M (list A) :=
  match xs with
  | [] => ret []
  | x :: rest =>
      b <- callback x ;;
      kept <- Array_filter ToBoolean callback rest ;;
      ret (if ToBoolean b then x :: kept else kept)
  end.

(** ** Inherited properties

    The names of the properties that an object written as a literal or
    built by [JSON.parse] inherits from [Object.prototype]: a read
    [object[key]] at one of them finds the inherited member unless the
    object has an entry of its own under that name. *)

Definition Object_prototype_names : list string :=
  [ "constructor"; "__defineGetter__"; "__defineSetter__"; "hasOwnProperty";
    "__lookupGetter__"; "__lookupSetter__"; "isPrototypeOf";
    "propertyIsEnumerable"; "toString"; "valueOf"; "__proto__";
    "toLocaleString" ].

Definition names_inherited (key : string) : bool :=
  existsb (String.eqb key) Object_prototype_names.

(** The underscore, character 95. *)
Definition underscore : Ascii.ascii := Ascii.ascii_of_nat 95.

(** The number of underscores in a text. *)
Fixpoint underscores (s : string) : nat :=
  match s with
  | EmptyString => 0
  | String c rest =>
      ((if Ascii.eqb c underscore then 1 else 0) + underscores rest)%nat
  end.

(** ** The tracker

    Every method that touches a cache takes [now], the reading of the
    clock (in milliseconds) that the cache makes during the call. *)

Module SolanaWalletTracker.

(** The defaults of the constructor's [cacheTTL]. *)
Definition default_cacheTTL_price : Z := 300.

Definition default_cacheTTL_metadata : Z := 3600.

Definition priceCache_get (now : Z) (key : string) : M (option number) :=
  fun st =>
    let (r, c) := NodeCache.get now key (priceCache st) in
    (Returns r, with_priceCache c st).

Definition priceCache_set (w : World) (now : Z) (key : string) (value : number) : M unit :=
  fun st =>
    (Returns tt,
     with_priceCache (NodeCache.set now (cacheTTL_price w) key value (priceCache st)) st).

Definition tokenMetadataCache_get (now : Z) (key : string) : M (option bool) :=
  fun st =>
    let (r, c) := NodeCache.get now key (tokenMetadataCache st) in
    (Returns r, with_tokenMetadataCache c st).

Definition tokenMetadataCache_set (w : World) (now : Z) (key : string) (value : bool) : M unit :=
  fun st =>
    (Returns tt,
     with_tokenMetadataCache
       (NodeCache.set now (cacheTTL_metadata w) key value (tokenMetadataCache st)) st).

Definition logger (level : LogLevel) (message : string) : M unit :=
  emit (Log level message).

Definition _validateWalletAddress (w : World) (walletAddress : string) : M string :=
  try_catch
    (lift (PublicKey w walletAddress))
    (fun _ =>
       logger error ("Invalid wallet address: " +:+ walletAddress) ;;
       throw "Invalid Solana wallet address").

Definition _checkTokenVolume (w : World) (mintAddress : string) : M bool :=
  call (Check TokenVolume mintAddress) (signal w TokenVolume mintAddress).

Definition _checkSocialTraction (w : World) (mintAddress : string) : M bool :=
  call (Check SocialTraction mintAddress) (signal w SocialTraction mintAddress).

Definition _checkTokenAge (w : World) (mintAddress : string) : M bool :=
  call (Check TokenAge mintAddress) (signal w TokenAge mintAddress).

(** The bodies the class ships for the three methods ("Placeholder
    advanced detection methods"): each returns false. *)
Definition placeholder_signal (s : Signal) (mintAddress : string) : outcome bool :=
  Returns false.

(** [signals.filter(Boolean).length >= 2] *)
Definition two_or_more (signals : list bool) : bool :=
  (2 <=? length (List.filter (fun b : bool => b) signals))%nat.

Definition _isTradableMemeToken (w : World) (now : Z) (mintAddress : string) : M bool :=
  try_catch
    (cachedResult <- tokenMetadataCache_get now mintAddress ;;
     match cachedResult with
     | Some b => ret b
     | None =>
         p1 <- async (_checkTokenVolume w mintAddress) ;;
         p2 <- async (_checkSocialTraction w mintAddress) ;;
         p3 <- async (_checkTokenAge w mintAddress) ;;
         signals <- lift (Promise_all [p1; p2; p3]) ;;
         let isTradable := two_or_more signals in
         tokenMetadataCache_set w now mintAddress isTradable ;;
         ret isTradable
     end)
    (fun message =>
       logger warn ("Token detection error: " +:+ message) ;;
       ret false).

(** [x || 0] at the end of an optional chain. *)
Definition price_or_zero (field : option number) : number :=
  match field with
  | Some x => or_zero x
  | None => 0%float
  end.

Definition _fetchCoinGeckoPrice (w : World) (mintAddress : string) : M number :=
  field <- call (Fetch CoinGecko mintAddress) (quote w CoinGecko mintAddress) ;;
  ret (price_or_zero field).

Definition _fetchDexScreenerPrice (w : World) (mintAddress : string) : M number :=
  field <- call (Fetch DexScreener mintAddress) (quote w DexScreener mintAddress) ;;
  ret (price_or_zero field).

Definition _fetchRaydiumPrice (w : World) (mintAddress : string) : M number :=
  field <- call (Fetch Raydium mintAddress) (quote w Raydium mintAddress) ;;
  ret (price_or_zero field).

Definition priceSources (w : World) : list (string -> M number) :=
  [ _fetchCoinGeckoPrice w; _fetchDexScreenerPrice w; _fetchRaydiumPrice w ].

(** The [for (const priceSource of priceSources)] loop: the body of its
    [try] either returns a price ([Some]) or falls through ([None]). *)
Fixpoint try_sources (w : World) (now : Z) (mintAddress : string)
    (sources : list (string -> M number)) : M number :=
  match sources with
  | [] => ret 0%float
  | priceSource :: rest =>
      returned <-
        try_catch
          (price <- priceSource mintAddress ;;
           if gt0 price
           then priceCache_set w now mintAddress price ;; ret (Some price)
           else ret None)
          (fun message =>
             logger warn ("Price fetch error: " +:+ message) ;;
             ret None) ;;
      match returned with
      | Some price => ret price
      | None => try_sources w now mintAddress rest
      end
  end.

(** [if (cachedPrice) return cachedPrice;] lets [undefined] and the
    falsy numbers through to the sources. *)
Definition _getTokenPrice (w : World) (now : Z) (mintAddress : string) : M number :=
  cachedPrice <- priceCache_get now mintAddress ;;
  match cachedPrice with
  | Some p =>
      if ToBoolean p then ret p
      else try_sources w now mintAddress (priceSources w)
  | None => try_sources w now mintAddress (priceSources w)
  end.

(** The message of a failed read is never looked at. *)
Definition readFile : M string :=
  fun st =>
    match costBasisFile st with
    | Some content => (Returns content, st)
    | None => (Throws "ENOENT: no such file or directory", st)
    end.

Definition writeFile (w : World) (content : string) : M unit :=
  fun st =>
    match writeFile_result w content with
    | Returns _ => (Returns tt, with_costBasisFile (Some content) st)
    | Throws message => (Throws message, st)
    end.

(** The message of a rejected text is never looked at. *)
Definition JSON_parse_file (w : World) (fileContent : string) : M JsonDoc :=
  fun st =>
    match JSON_parse w fileContent with
    | Some doc => (Returns doc, st)
    | None => (Throws "Unexpected token in JSON", st)
    end.

(** [costBasisData[key] || 0].  The lookup is among the entries of the
    object, which is what the read does at every key that names no
    inherited property ([names_inherited key = false]); a key built by
    the tracker, one underscore between two base58 texts, is such a key.
    At an inherited name without an entry of its own the read finds the
    inherited member, which is no number: those keys are outside the
    model. *)
Definition lookup_or_zero (costBasisData : JsonDoc) (key : string) : M number :=
  match costBasisData with
  | JNull => throw ("Cannot read properties of null (reading '" +:+ key +:+ "')")
  | JRecords entries =>
      ret (match entries !! key with
           | Some x => or_zero x
           | None => 0%float
           end)
  end.

Definition _trackCostBasis (w : World) (walletAddress mintAddress : string) : M number :=
  try_catch
    (costBasisData <-
       try_catch
         (fileContent <- readFile ;;
          JSON_parse_file w fileContent)
         (fun _ =>
            writeFile w "{}" ;;
            ret (JRecords ∅)) ;;
     let key := walletAddress +:+ "_" +:+ mintAddress in
     lookup_or_zero costBasisData key)
    (fun message =>
       logger error ("Cost basis tracking error: " +:+ message) ;;
       ret 0%float).

(** The callback of [.map(async (account) => ...)]. *)
Definition gain_of (w : World) (now : Z) (walletAddress : string)
    (account : TokenAccount) : M GainResult :=
  currentPrice <- _getTokenPrice w now (mint account) ;;
  let amount := uiAmount account in
  costBasis <- _trackCostBasis w walletAddress (mint account) ;;
  ret {| token := mint account;
         currentPrice := currentPrice;
         amount := amount;
         costBasis := costBasis;
         totalValue := (currentPrice * amount)%float;
         unrealizedGain := ((currentPrice * amount) - costBasis)%float |}.

Definition calculateGains (w : World) (now : Z) (walletAddress : string)
    : M (list GainResult) :=
  try_catch
    (publicKey <- _validateWalletAddress w walletAddress ;;
     tokenAccounts <-
       call (GetParsedTokenAccountsByOwner publicKey)
            (getParsedTokenAccountsByOwner w publicKey) ;;
     kept <-
       Array_filter ToBoolean_object
         (fun account => async (_isTradableMemeToken w now (mint account)))
         tokenAccounts ;;
     promises <- Array_map (fun account => async (gain_of w now walletAddress account)) kept ;;
     gainResults <- lift (Promise_all promises) ;;
     logger info ("Calculated gains for wallet " +:+ walletAddress) ;;
     ret (List.filter (fun result => gt0 (totalValue result)) gainResults))
    (fun message =>
       logger error ("Gains calculation error: " +:+ message) ;;
       throw ("Wallet gains calculation failed: " +:+ message)).

End SolanaWalletTracker.

Import SolanaWalletTracker.

(** ** The controller *)

Module Controller.

Inductive Body : Type :=
| Failure (success : bool) (message : string)
| Success (success : bool) (data : list GainResult).

(** What the handler does with its response: [res.status(s).json(b)],
    or [next(error)]. *)
Inductive Reply : Type :=
| Json (status : Z) (body : Body)
| Next (message : string).

(** [!address], for a string. *)
Definition not_string (address : string) : bool :=
  match address with
  | EmptyString => true
  | String _ _ => false
  end.

(** [calculateGains] is what the handler imports from the services
    module; every call the handler makes to it is recorded. *)
Definition getWalletGains (calculateGains : string -> M (list GainResult))
    (address : string) : M Reply :=
  try_catch
    (if not_string address || (String.length address <? 32)%nat
     then ret (Json 400 (Failure false "Invalid wallet address"))
     else
       emit (CalculateGains address) ;;
       results <- calculateGains address ;;
       ret (Json 200 (Success true results)))
    (fun message => ret (Next message)).

End Controller.

Import Controller.

(** ** Vocabulary of the statements *)

(** The price requests, and the signal evaluations, a trace records. *)
Definition fetches (tr : list Event) : list (PriceSource * string) :=
  flat_map (fun e => match e with Fetch s m => [(s, m)] | _ => [] end) tr.

Definition checks (tr : list Event) : list (Signal * string) :=
  flat_map (fun e => match e with Check s m => [(s, m)] | _ => [] end) tr.

(** The fetcher behind each position of [priceSources]. *)
Definition fetcher (s : PriceSource) : World -> string -> M number :=
  match s with
  | CoinGecko => _fetchCoinGeckoPrice
  | DexScreener => _fetchDexScreenerPrice
  | Raydium => _fetchRaydiumPrice
  end.

Definition source_order : list PriceSource := [CoinGecko; DexScreener; Raydium].

(** What a fetcher hands back: the quoted price or zero, or the failure
    of its request. *)
Definition answer (w : World) (mintAddress : string) (s : PriceSource) : outcome number :=
  match quote w s mintAddress with
  | Returns field => Returns (price_or_zero field)
  | Throws message => Throws message
  end.

(** A source the loop passes over: its request throws, or its price is
    not above zero. *)
Definition passed_over (w : World) (mintAddress : string) (s : PriceSource) : Prop :=
  match answer w mintAddress s with
  | Throws _ => True
  | Returns q => gt0 q = false
  end.

(** The same, in the words of the specification: throws, or a price
    that is at most zero. *)
Definition fails_or_non_positive (w : World) (mintAddress : string) (s : PriceSource) : Prop :=
  match answer w mintAddress s with
  | Throws _ => True
  | Returns q => le0 q = true
  end.

(** The key of a wallet and mint pair. *)
Definition store_key (walletAddress mintAddress : string) : string :=
  walletAddress +:+ "_" +:+ mintAddress.

(** What the persisted store records under the pair's key: the entry
    of the parsed file, when the file is there and parses to an object. *)
Definition recorded (w : World) (walletAddress mintAddress : string) (st : State)
    : option number :=
  match costBasisFile st with
  | Some content =>
      match JSON_parse w content with
      | Some (JRecords entries) => entries !! store_key walletAddress mintAddress
      | _ => None
      end
  | None => None
  end.

(** What [_trackCostBasis] comes to once the file has been found
    unreadable or rejected: the empty object is written, or the failure
    of the write is logged; zero either way. *)
Definition reinitialized (w : World) (st : State) : outcome number * State :=
  match writeFile_result w "{}" with
  | Returns _ => (Returns 0%float, with_costBasisFile (Some "{}") st)
  | Throws message =>
      (Returns 0%float,
       with_trace (trace st ++ [Log error ("Cost basis tracking error: " +:+ message)]) st)
  end.

(** A result is built from a holding when it carries the holding's mint
    and amount, and its value and gain are computed from its own price,
    amount and cost basis. *)
Definition built_from (account : TokenAccount) (r : GainResult) : Prop :=
  token r = mint account
  /\ amount r = uiAmount account
  /\ totalValue r = (currentPrice r * amount r)%float
  /\ unrealizedGain r = (totalValue r - costBasis r)%float.

(** [contains needle hay]: [needle] occurs in [hay]. *)
Fixpoint contains (needle hay : string) : bool :=
  String.prefix needle hay
  || match hay with
     | EmptyString => false
     | String _ rest => contains needle rest
     end.

(** Every price that the price cache holds is above zero. *)
Definition prices_positive (st : State) : Prop :=
  forall key e, priceCache st !! key = Some e -> gt0 (NodeCache.v e) = true.

(** The first answer that is a price above zero, zero when there is none. *)
Fixpoint first_positive (answers : list (outcome number)) : number :=
  match answers with
  | [] => 0%float
  | Returns p :: rest => if gt0 p then p else first_positive rest
  | Throws _ :: rest => first_positive rest
  end.

(** The price that the three sources, asked in order, come to. *)
Definition resolved (w : World) (mintAddress : string) : number :=
  first_positive (map (answer w mintAddress) source_order).

(** The price cache after a miss that resolves to [p]. *)
Definition cache_after (w : World) (now : Z) (mintAddress : string) (p : number)
    (cache : gmap string (NodeCache.entry number)) : gmap string (NodeCache.entry number) :=
  if gt0 p
  then <[mintAddress := NodeCache.Entry p (NodeCache.livetime now (cacheTTL_price w))]> cache
  else cache.

(** A result whose price is 0 or above zero. *)
Definition priced_result (account : TokenAccount) (r : GainResult) : Prop :=
  built_from account r
  /\ (currentPrice r = 0%float \/ gt0 (currentPrice r) = true).

(** Two states with the same price cache and the same cost-basis file. *)
Definition same_store (st1 st2 : State) : Prop :=
  priceCache st1 = priceCache st2 /\ costBasisFile st1 = costBasisFile st2.

(** Two worlds that differ at most in their signal methods (and in the
    lifetime of the verdicts on them). *)
Definition same_but_signals (w1 w2 : World) : Prop :=
  cacheTTL_price w1 = cacheTTL_price w2
  /\ PublicKey w1 = PublicKey w2
  /\ getParsedTokenAccountsByOwner w1 = getParsedTokenAccountsByOwner w2
  /\ quote w1 = quote w2
  /\ JSON_parse w1 = JSON_parse w2
  /\ writeFile_result w1 = writeFile_result w2.

(** The cost-basis file cannot be read, or holds a text that
    [JSON.parse] rejects. *)
Definition unusable (w : World) (st : State) : Prop :=
  match costBasisFile st with
  | None => True
  | Some content => JSON_parse w content = None
  end.

(** The three kinds of reply of the handler when the tracker is behind
    it. *)
Definition reply_kind (address : string) (reply : Reply) : Prop :=
  match reply with
  | Json status (Failure success message) =>
      status = 400 /\ success = false /\ message = "Invalid wallet address"
      /\ (String.length address < 32)%nat
  | Json status (Success success data) =>
      status = 200 /\ success = true /\ (32 <= String.length address)%nat
      /\ Forall (fun r => gt0 (totalValue r) = true) data
  | Next message =>
      (32 <= String.length address)%nat
      /\ exists detail, message = "Wallet gains calculation failed: " +:+ detail
  end.

(** ** Concrete worlds *)

Module Examples.

Definition wallet : string := "11111111111111111111111111111111".

Definition quoted (s : string) : string :=
  String (Ascii.ascii_of_nat 34) (s +:+ String (Ascii.ascii_of_nat 34) "").

(** A store file with one entry: 5 for [wallet] and MintA. *)
Definition store_text : string := "{" +:+ quoted (wallet +:+ "_MintA") +:+ ":5}".

Definition holdings : list TokenAccount :=
  [ {| mint := "MintA"; uiAmount := 10%float |};
    {| mint := "MintB"; uiAmount := 1%float |} ].

(** CoinGecko is down; DexScreener quotes 2 for MintA; Raydium quotes 3
    for MintB; every signal holds of MintA and of no other mint. *)
Definition demo : World := {|
  cacheTTL_price := default_cacheTTL_price;
  cacheTTL_metadata := default_cacheTTL_metadata;
  PublicKey := fun address =>
    if String.eqb address wallet then Returns address
    else Throws "Invalid public key input";
  getParsedTokenAccountsByOwner := fun _ => Returns holdings;
  quote := fun source mintAddress =>
    match source with
    | CoinGecko => Throws "timeout of 5000ms exceeded"
    | DexScreener =>
        Returns (if String.eqb mintAddress "MintA" then Some 2%float else None)
    | Raydium =>
        Returns (if String.eqb mintAddress "MintB" then Some 3%float else None)
    end;
  signal := fun _ mintAddress => Returns (String.eqb mintAddress "MintA");
  JSON_parse := fun text =>
    if String.eqb text "{}" then Some (JRecords ∅)
    else if String.eqb text store_text
         then Some (JRecords {[ wallet +:+ "_MintA" := 5%float ]})
         else None;
  writeFile_result := fun _ => Returns tt
|}.

(** The same world with the chain endpoint refusing connections. *)
Definition rpc_down : World := {|
  cacheTTL_price := cacheTTL_price demo;
  cacheTTL_metadata := cacheTTL_metadata demo;
  PublicKey := PublicKey demo;
  getParsedTokenAccountsByOwner := fun _ => Throws "connect ECONNREFUSED 127.0.0.1:8899";
  quote := quote demo;
  signal := signal demo;
  JSON_parse := JSON_parse demo;
  writeFile_result := writeFile_result demo
|}.

(** The same world with a volume signal that fails and two other
    signals that hold. *)
Definition volume_down : World := {|
  cacheTTL_price := cacheTTL_price demo;
  cacheTTL_metadata := cacheTTL_metadata demo;
  PublicKey := PublicKey demo;
  getParsedTokenAccountsByOwner := getParsedTokenAccountsByOwner demo;
  quote := quote demo;
  signal := fun s _ =>
    match s with
    | TokenVolume => Throws "volume feed unavailable"
    | SocialTraction | TokenAge => Returns true
    end;
  JSON_parse := JSON_parse demo;
  writeFile_result := writeFile_result demo
|}.

(** The world of [demo] with the signal methods as the class ships them. *)
Definition shipped : World := {|
  cacheTTL_price := cacheTTL_price demo;
  cacheTTL_metadata := cacheTTL_metadata demo;
  PublicKey := PublicKey demo;
  getParsedTokenAccountsByOwner := getParsedTokenAccountsByOwner demo;
  quote := quote demo;
  signal := placeholder_signal;
  JSON_parse := JSON_parse demo;
  writeFile_result := writeFile_result demo
|}.

(** The results for the two holdings. *)
Definition gainA : GainResult :=
  {| token := "MintA"; currentPrice := 2%float; amount := 10%float;
     costBasis := 5%float; totalValue := 20%float; unrealizedGain := 15%float |}.

Definition gainB : GainResult :=
  {| token := "MintB"; currentPrice := 3%float; amount := 1%float;
     costBasis := 0%float; totalValue := 3%float; unrealizedGain := 3%float |}.

Definition with_store (file : option string) : State :=
  {| priceCache := ∅; tokenMetadataCache := ∅; costBasisFile := file; trace := [] |}.

Definition fresh : State := with_store (Some store_text).

Definition no_store : State := with_store None.


(** The world of [demo] with a cost-basis file that cannot be written. *)
Definition read_only : World := {|
  cacheTTL_price := cacheTTL_price demo;
  cacheTTL_metadata := cacheTTL_metadata demo;
  PublicKey := PublicKey demo;
  getParsedTokenAccountsByOwner := getParsedTokenAccountsByOwner demo;
  quote := quote demo;
  signal := signal demo;
  JSON_parse := JSON_parse demo;
  writeFile_result := fun _ => Throws "EACCES: permission denied"
|}.

(** The world of [demo] with a wallet that holds no token account. *)
Definition empty_wallet : World := {|
  cacheTTL_price := cacheTTL_price demo;
  cacheTTL_metadata := cacheTTL_metadata demo;
  PublicKey := PublicKey demo;
  getParsedTokenAccountsByOwner := fun _ => Returns [];
  quote := quote demo;
  signal := signal demo;
  JSON_parse := JSON_parse demo;
  writeFile_result := writeFile_result demo
|}.

(** Thirty-two characters that are no address: 0 is not a base58 digit. *)
Definition bad_address : string := "00000000000000000000000000000000".

(** A state whose price cache holds 2 for MintA, written at 1000 under
    the default lifetime, so expiring at 301000. *)
Definition priced : State :=
  {| priceCache := {[ "MintA" := NodeCache.Entry 2%float 301000 ]};
     tokenMetadataCache := ∅; costBasisFile := Some store_text; trace := [] |}.

End Examples.

(** * Properties *)

Import Examples.

(** ** Numbers *)

Lemma Prim2SF_zero : Prim2SF 0%float = S754_zero false.
Proof. reflexivity. Qed.

Lemma SFcompare_refl_finite s m e :
  SFcompare (S754_finite s m e) (S754_finite s m e) = Some Eq.
Proof.
  cbn. rewrite Z.compare_refl.
  assert (Hm : Pos.compare_cont Eq m m = Eq) by apply Pos.compare_cont_refl.
  rewrite Hm. now destruct s.
Qed.

(** A number greater than zero is truthy. *)
Lemma gt0_ToBoolean x : gt0 x = true -> ToBoolean x = true.
Proof.
  unfold gt0, ToBoolean.
  rewrite FloatAxioms.ltb_spec, !FloatAxioms.eqb_spec, Prim2SF_zero.
  unfold SFltb, SFeqb.
  destruct (Prim2SF x) as [s | s | | s m e].
  - discriminate.
  - now destruct s.
  - discriminate.
  - rewrite SFcompare_refl_finite. now destruct s.
Qed.

(** A number that is at most zero is not greater than zero. *)
Lemma le0_not_gt0 x : le0 x = true -> gt0 x = false.
Proof.
  unfold gt0, le0.
  rewrite FloatAxioms.ltb_spec, FloatAxioms.leb_spec, Prim2SF_zero.
  unfold SFltb, SFleb.
  destruct (Prim2SF x) as [s | s | | s m e]; cbn; try reflexivity;
    destruct s; cbn; congruence.
Qed.

(** Zero times anything is never greater than zero. *)
Lemma mul_zero_not_gt0 a : gt0 (0 * a)%float = false.
Proof.
  unfold gt0.
  rewrite FloatAxioms.ltb_spec, FloatAxioms.mul_spec, Prim2SF_zero.
  unfold SFltb, SF64mul.
  destruct (Prim2SF a) as [s | s | | s m e]; reflexivity.
Qed.

(** ** The cache *)

Section CacheFacts.

Context {V : Type}.

Lemma get_absent now key (data : gmap string (NodeCache.entry V)) :
  data !! key = None -> NodeCache.get now key data = (None, data).
Proof. unfold NodeCache.get. now intros ->. Qed.

Lemma check_livetime now now' stdTTL (value : V) :
  now' <= now + stdTTL * 1000 ->
  NodeCache.check now' (NodeCache.Entry value (NodeCache.livetime now stdTTL)) = true.
Proof.
  intros Hle. unfold NodeCache.check, NodeCache.livetime. cbn.
  destruct (Z.eqb_spec stdTTL 0) as [-> | Hnz]; [reflexivity |].
  destruct (Z.eqb_spec (now + stdTTL * 1000) 0); [reflexivity |].
  cbn. apply negb_true_iff, Z.ltb_ge. exact Hle.
Qed.

(** A value written at [now] is read back, from an unchanged cache, at
    every instant of its window. *)
Lemma get_set_within now now' stdTTL key (value : V) data :
  now' <= now + stdTTL * 1000 ->
  NodeCache.get now' key (NodeCache.set now stdTTL key value data)
  = (Some value, NodeCache.set now stdTTL key value data).
Proof.
  intros Hle. unfold NodeCache.get, NodeCache.set.
  rewrite lookup_insert_eq, check_livetime by exact Hle. reflexivity.
Qed.

End CacheFacts.

(** ** Bookkeeping on states and traces *)

Lemma with_priceCache_same st : with_priceCache (priceCache st) st = st.
Proof. now destruct st. Qed.

Lemma with_tokenMetadataCache_same st :
  with_tokenMetadataCache (tokenMetadataCache st) st = st.
Proof. now destruct st. Qed.

Lemma fetches_app tr1 tr2 : fetches (tr1 ++ tr2) = fetches tr1 ++ fetches tr2.
Proof. apply flat_map_app. Qed.

Lemma checks_app tr1 tr2 : checks (tr1 ++ tr2) = checks tr1 ++ checks tr2.
Proof. apply flat_map_app. Qed.

(** ** The price oracle *)

Section PriceOracle.

Variables (w : World) (now : Z) (mintAddress : string).

Lemma priceSources_order : priceSources w = map (fun s => fetcher s w) source_order.
Proof. reflexivity. Qed.

Lemma fetcher_run s st :
  fetcher s w mintAddress st
  = (answer w mintAddress s, with_trace (trace st ++ [Fetch s mintAddress]) st).
Proof.
  unfold answer.
  destruct s; cbn; unfold _fetchCoinGeckoPrice, _fetchDexScreenerPrice,
    _fetchRaydiumPrice, bind, call, ret;
    now destruct (quote w _ mintAddress).
Qed.

Lemma fails_or_non_positive_passed_over s :
  fails_or_non_positive w mintAddress s -> passed_over w mintAddress s.
Proof.
  unfold fails_or_non_positive, passed_over.
  destruct (answer w mintAddress s); [apply le0_not_gt0 | trivial].
Qed.

(** One turn of the loop on a source that is passed over. *)
Lemma try_sources_pass s rest st :
  passed_over w mintAddress s ->
  exists st1,
    try_sources w now mintAddress (fetcher s w :: rest) st
    = try_sources w now mintAddress rest st1
    /\ priceCache st1 = priceCache st
    /\ fetches (trace st1) = fetches (trace st) ++ [(s, mintAddress)].
Proof.
  unfold passed_over. intros Hs.
  cbn [try_sources]. unfold bind at 1, try_catch, bind at 1.
  rewrite fetcher_run.
  destruct (answer w mintAddress s) as [q | message].
  - rewrite Hs. cbn.
    eexists. split; [reflexivity |]. cbn.
    now rewrite fetches_app.
  - cbn. eexists. split; [reflexivity |]. cbn.
    rewrite !fetches_app. cbn. now rewrite app_nil_r.
Qed.

(** The loop passes over a whole prefix of such sources. *)
Lemma try_sources_skip pre rest st :
  Forall (passed_over w mintAddress) pre ->
  exists st1,
    try_sources w now mintAddress (map (fun s => fetcher s w) (pre ++ rest)) st
    = try_sources w now mintAddress (map (fun s => fetcher s w) rest) st1
    /\ priceCache st1 = priceCache st
    /\ fetches (trace st1)
       = fetches (trace st) ++ map (fun s => (s, mintAddress)) pre.
Proof.
  intros Hpre. revert st.
  induction Hpre as [| s pre Hs _ IH]; intros st.
  - exists st. cbn. now rewrite app_nil_r.
  - destruct (try_sources_pass s (map (fun s => fetcher s w) (pre ++ rest)) st Hs)
      as (st1 & Hrun & Hp & Ht).
    destruct (IH st1) as (st2 & Hrun2 & Hp2 & Ht2).
    exists st2. cbn [app map]. rewrite Hrun, Hrun2.
    repeat split; try congruence.
    rewrite Ht2, Ht, <- app_assoc. reflexivity.
Qed.

(** One turn of the loop on a source whose price is above zero. *)
Lemma try_sources_hit s rest st p :
  answer w mintAddress s = Returns p ->
  gt0 p = true ->
  try_sources w now mintAddress (fetcher s w :: rest) st
  = (Returns p,
     with_priceCache
       (NodeCache.set now (cacheTTL_price w) mintAddress p (priceCache st))
       (with_trace (trace st ++ [Fetch s mintAddress]) st)).
Proof.
  intros Ha Hp.
  cbn [try_sources]. unfold bind at 1, try_catch, bind at 1.
  rewrite fetcher_run, Ha, Hp. reflexivity.
Qed.

(** The loop never throws. *)
Lemma try_sources_returns sources st :
  exists p st', try_sources w now mintAddress sources st = (Returns p, st').
Proof.
  revert st. induction sources as [| f rest IH]; intros st.
  - now exists 0%float, st.
  - cbn [try_sources]. unfold bind at 1, try_catch, bind at 1.
    destruct (f mintAddress st) as [[price | message] st1].
    + destruct (gt0 price); cbn; [now eauto | apply IH].
    + cbn. apply IH.
Qed.

Lemma getTokenPrice_returns st :
  exists p st', _getTokenPrice w now mintAddress st = (Returns p, st').
Proof.
  unfold _getTokenPrice, bind, priceCache_get.
  destruct (NodeCache.get now mintAddress (priceCache st)) as [[p |] c].
  - destruct (ToBoolean p); [now eauto | apply try_sources_returns].
  - apply try_sources_returns.
Qed.

(** On a key that is absent from the price cache, [_getTokenPrice] is
    the loop over the sources. *)
Lemma getTokenPrice_absent st :
  priceCache st !! mintAddress = None ->
  _getTokenPrice w now mintAddress st
  = try_sources w now mintAddress (priceSources w) st.
Proof.
  intros Habs. unfold _getTokenPrice, bind, priceCache_get.
  rewrite get_absent by exact Habs.
  now rewrite with_priceCache_same.
Qed.

(** A price above zero that sits in the cache is returned, within its
    window, by whatever world, and nothing else happens. *)
Lemma getTokenPrice_cached (w' : World) now' st p :
  gt0 p = true ->
  now' <= now + cacheTTL_price w * 1000 ->
  priceCache st !! mintAddress
  = Some (NodeCache.Entry p (NodeCache.livetime now (cacheTTL_price w))) ->
  _getTokenPrice w' now' mintAddress st = (Returns p, st).
Proof.
  intros Hp Hle Hin. unfold _getTokenPrice, bind, priceCache_get, NodeCache.get.
  rewrite Hin, check_livetime by exact Hle. cbn.
  rewrite (gt0_ToBoolean p Hp), with_priceCache_same. reflexivity.
Qed.

End PriceOracle.

(** C2.  On a mint that is absent from the price cache, [_getTokenPrice]
    asks the sources in the order CoinGecko, DexScreener, Raydium; it
    passes over every source that throws or whose price is at most zero;
    the price of the first source whose price is above zero is returned
    and stored under the mint in the price cache; and a later call made
    before the entry expires returns that price and asks no source (it
    leaves the state, hence the record of requests, as it was). *)
Theorem getTokenPrice_first_positive_source
    (w : World) (now : Z) (mintAddress : string) (st : State)
    (pre post : list PriceSource) (s : PriceSource) (p : number) :
  priceCache st !! mintAddress = None ->
  [CoinGecko; DexScreener; Raydium] = pre ++ s :: post ->
  Forall (fails_or_non_positive w mintAddress) pre ->
  answer w mintAddress s = Returns p ->
  gt0 p = true ->
  exists st',
    _getTokenPrice w now mintAddress st = (Returns p, st')
    /\ fetches (trace st')
       = fetches (trace st) ++ map (fun s' => (s', mintAddress)) (pre ++ [s])
    /\ priceCache st'
       = <[mintAddress := NodeCache.Entry p (NodeCache.livetime now (cacheTTL_price w))]>
           (priceCache st)
    /\ forall (w' : World) (now' : Z),
         now' <= now + cacheTTL_price w * 1000 ->
         _getTokenPrice w' now' mintAddress st' = (Returns p, st').
Proof.
  intros Habs Horder Hpre Hs Hp.
  rewrite getTokenPrice_absent by exact Habs.
  rewrite priceSources_order. unfold source_order. rewrite Horder.
  assert (Hpass : Forall (passed_over w mintAddress) pre).
  { eapply Forall_impl; [exact Hpre |].
    apply fails_or_non_positive_passed_over. }
  destruct (try_sources_skip w now mintAddress pre (s :: post) st Hpass)
    as (st1 & Hrun & Hc & Ht).
  rewrite Hrun. cbn [map].
  rewrite (try_sources_hit w now mintAddress s _ st1 p Hs Hp).
  eexists. split; [reflexivity |]. cbn.
  split; [| split].
  - rewrite fetches_app, Ht, map_app, <- app_assoc. reflexivity.
  - unfold NodeCache.set. now rewrite Hc.
  - intros w' now' Hle.
    apply (getTokenPrice_cached w now mintAddress w' now' _ p Hp Hle).
    cbn. unfold NodeCache.set. apply lookup_insert_eq.
Qed.

(** C3.  On a mint that is absent from the price cache, when every source
    throws or returns a price that is at most zero, [_getTokenPrice]
    returns exactly 0 (it does not throw), after asking the three sources
    in order, and leaves the price cache as it was. *)
Theorem getTokenPrice_all_sources_fail
    (w : World) (now : Z) (mintAddress : string) (st : State) :
  priceCache st !! mintAddress = None ->
  (forall s, fails_or_non_positive w mintAddress s) ->
  exists st',
    _getTokenPrice w now mintAddress st = (Returns 0%float, st')
    /\ priceCache st' = priceCache st
    /\ fetches (trace st')
       = fetches (trace st)
         ++ [(CoinGecko, mintAddress); (DexScreener, mintAddress); (Raydium, mintAddress)].
Proof.
  intros Habs Hall.
  rewrite getTokenPrice_absent by exact Habs.
  rewrite priceSources_order.
  assert (Hpass : Forall (passed_over w mintAddress) source_order).
  { apply Forall_forall. intros s _.
    apply fails_or_non_positive_passed_over, Hall. }
  destruct (try_sources_skip w now mintAddress source_order [] st Hpass)
    as (st1 & Hrun & Hc & Ht).
  rewrite app_nil_r in Hrun. rewrite Hrun.
  exists st1. cbn. auto.
Qed.

(** ** The eligibility filter *)

Section Eligibility.

Variables (w : World) (now : Z) (mintAddress : string).

(** On a key that is absent from the metadata cache, the three signal
    methods are called in order, whatever their outcomes. *)
Lemma isTradableMemeToken_absent st :
  tokenMetadataCache st !! mintAddress = None ->
  _isTradableMemeToken w now mintAddress st
  = let st3 :=
      with_trace (trace st ++ [Check TokenVolume mintAddress;
                               Check SocialTraction mintAddress;
                               Check TokenAge mintAddress]) st in
    match Promise_all [promise (signal w TokenVolume mintAddress);
                       promise (signal w SocialTraction mintAddress);
                       promise (signal w TokenAge mintAddress)] with
    | Returns signals =>
        (Returns (two_or_more signals),
         with_tokenMetadataCache
           (NodeCache.set now (cacheTTL_metadata w) mintAddress
              (two_or_more signals) (tokenMetadataCache st)) st3)
    | Throws message =>
        (Returns false,
         with_trace (trace st3 ++ [Log warn ("Token detection error: " +:+ message)]) st3)
    end.
Proof.
  intros Habs.
  unfold _isTradableMemeToken, try_catch, bind at 1, tokenMetadataCache_get.
  rewrite get_absent by exact Habs.
  rewrite with_tokenMetadataCache_same.
  unfold bind, async, _checkTokenVolume, _checkSocialTraction, _checkTokenAge, call, lift.
  cbn -[Promise_all two_or_more].
  rewrite <- !app_assoc. cbn [app].
  destruct (Promise_all _) as [signals | message]; reflexivity.
Qed.

(** A verdict that sits in the metadata cache is returned, within its
    window, by whatever world, and nothing else happens. *)
Lemma isTradableMemeToken_cached (w' : World) now' st b :
  now' <= now + cacheTTL_metadata w * 1000 ->
  tokenMetadataCache st !! mintAddress
  = Some (NodeCache.Entry b (NodeCache.livetime now (cacheTTL_metadata w))) ->
  _isTradableMemeToken w' now' mintAddress st = (Returns b, st).
Proof.
  intros Hle Hin.
  unfold _isTradableMemeToken, try_catch, bind, tokenMetadataCache_get, NodeCache.get.
  rewrite Hin, check_livetime by exact Hle. cbn.
  now rewrite with_tokenMetadataCache_same.
Qed.

(** [_isTradableMemeToken] never throws. *)
Lemma isTradableMemeToken_returns st :
  exists b st', _isTradableMemeToken w now mintAddress st = (Returns b, st').
Proof.
  unfold _isTradableMemeToken, try_catch.
  match goal with |- context [match ?body st with _ => _ end] =>
    destruct (body st) as [[b | message] st1] end.
  - now eauto.
  - cbn. now eauto.
Qed.

End Eligibility.

(** The count of the source against the plain reading of "at least two
    of the three". *)
Lemma two_or_more_three (v s a : bool) :
  two_or_more [v; s; a] = true
  <-> (v = true /\ s = true) \/ (v = true /\ a = true) \/ (s = true /\ a = true).
Proof. destruct v, s, a; cbn; intuition congruence. Qed.

(** C4.  On a mint that is absent from the metadata cache, with three
    signals that return booleans, [_isTradableMemeToken] returns true if
    and only if at least two of them are true; it evaluates each signal
    once, stores the verdict under the mint in the metadata cache, and a
    later call made before the entry expires returns the stored verdict
    and evaluates no signal (it leaves the state as it was). *)
Theorem isTradableMemeToken_two_of_three
    (w : World) (now : Z) (mintAddress : string) (st : State) (v s a : bool) :
  tokenMetadataCache st !! mintAddress = None ->
  signal w TokenVolume mintAddress = Returns v ->
  signal w SocialTraction mintAddress = Returns s ->
  signal w TokenAge mintAddress = Returns a ->
  exists (b : bool) (st' : State),
    _isTradableMemeToken w now mintAddress st = (Returns b, st')
    /\ (b = true
        <-> (v = true /\ s = true) \/ (v = true /\ a = true) \/ (s = true /\ a = true))
    /\ tokenMetadataCache st'
       = <[mintAddress := NodeCache.Entry b (NodeCache.livetime now (cacheTTL_metadata w))]>
           (tokenMetadataCache st)
    /\ checks (trace st')
       = checks (trace st)
         ++ [(TokenVolume, mintAddress); (SocialTraction, mintAddress); (TokenAge, mintAddress)]
    /\ forall (w' : World) (now' : Z),
         now' <= now + cacheTTL_metadata w * 1000 ->
         _isTradableMemeToken w' now' mintAddress st' = (Returns b, st').
Proof.
  intros Habs Hv Hs Ha.
  rewrite isTradableMemeToken_absent by exact Habs.
  rewrite Hv, Hs, Ha. cbn [Promise_all settled].
  eexists _, _. split; [reflexivity |].
  split; [apply two_or_more_three |].
  split; [reflexivity |].
  split; [cbn; now rewrite checks_app |].
  intros w' now' Hle.
  apply (isTradableMemeToken_cached w now mintAddress w' now' _ _ Hle).
  cbn. unfold NodeCache.set. apply lookup_insert_eq.
Qed.

(** C5, as the code has it.  On a mint that is absent from the metadata
    cache, when any of the three signal evaluations throws,
    [_isTradableMemeToken] returns false, whatever the other signals say:
    the failure rejects the whole of [Promise.all], a warning is logged,
    and no verdict is stored. *)
Theorem isTradableMemeToken_signal_failure
    (w : World) (now : Z) (mintAddress : string) (st : State)
    (failing : Signal) (message : string) :
  tokenMetadataCache st !! mintAddress = None ->
  signal w failing mintAddress = Throws message ->
  exists (reported : string) (st' : State),
    _isTradableMemeToken w now mintAddress st = (Returns false, st')
    /\ tokenMetadataCache st' = tokenMetadataCache st
    /\ trace st'
       = trace st
         ++ [Check TokenVolume mintAddress; Check SocialTraction mintAddress;
             Check TokenAge mintAddress;
             Log warn ("Token detection error: " +:+ reported)].
Proof.
  intros Habs Hfail.
  rewrite isTradableMemeToken_absent by exact Habs.
  assert (Hrej : exists reported,
             Promise_all [promise (signal w TokenVolume mintAddress);
                          promise (signal w SocialTraction mintAddress);
                          promise (signal w TokenAge mintAddress)]
             = Throws reported).
  { cbn [Promise_all settled].
    destruct failing; rewrite Hfail;
      repeat match goal with
             | |- context [match signal w ?sg mintAddress with _ => _ end] =>
                 destruct (signal w sg mintAddress)
             end; eauto. }
  destruct Hrej as (reported & ->).
  exists reported. eexists. split; [reflexivity |].
  split; [reflexivity |].
  cbn. now rewrite <- app_assoc.
Qed.

(** ** The cost-basis store *)

(** Unfolds one run of [_trackCostBasis] down to the file and the world. *)
Ltac run_store :=
  unfold _trackCostBasis, try_catch, bind, readFile, writeFile, JSON_parse_file,
    lookup_or_zero, logger, emit, ret, throw.

Section CostBasis.

Variables (w : World) (walletAddress mintAddress : string).

(** The file cannot be read. *)
Lemma trackCostBasis_missing st :
  costBasisFile st = None ->
  _trackCostBasis w walletAddress mintAddress st = reinitialized w st.
Proof.
  intros Hnone. unfold reinitialized. run_store.
  rewrite Hnone. now destruct (writeFile_result w "{}").
Qed.

(** The file is there and does not parse. *)
Lemma trackCostBasis_corrupt st content :
  costBasisFile st = Some content ->
  JSON_parse w content = None ->
  _trackCostBasis w walletAddress mintAddress st = reinitialized w st.
Proof.
  intros Hsome Hparse. unfold reinitialized. run_store.
  rewrite Hsome, Hparse. now destruct (writeFile_result w "{}").
Qed.

(** The file parses to an object: its entry, or zero, and no write. *)
Lemma trackCostBasis_records st content entries :
  costBasisFile st = Some content ->
  JSON_parse w content = Some (JRecords entries) ->
  _trackCostBasis w walletAddress mintAddress st
  = (Returns (match entries !! store_key walletAddress mintAddress with
              | Some x => or_zero x
              | None => 0%float
              end), st).
Proof.
  intros Hsome Hparse. run_store.
  rewrite Hsome, Hparse. reflexivity.
Qed.

(** The file parses to [null]: the lookup throws, which is logged. *)
Lemma trackCostBasis_null st content :
  costBasisFile st = Some content ->
  JSON_parse w content = Some JNull ->
  _trackCostBasis w walletAddress mintAddress st
  = (Returns 0%float,
     with_trace
       (trace st
        ++ [Log error ("Cost basis tracking error: "
                       +:+ ("Cannot read properties of null (reading '"
                            +:+ store_key walletAddress mintAddress +:+ "')"))])
       st).
Proof.
  intros Hsome Hparse. run_store.
  rewrite Hsome, Hparse. reflexivity.
Qed.

Lemma reinitialized_returns st :
  exists st', reinitialized w st = (Returns 0%float, st').
Proof. unfold reinitialized. destruct (writeFile_result w "{}"); now eauto. Qed.

(** [_trackCostBasis] never throws. *)
Lemma trackCostBasis_returns st :
  exists c st', _trackCostBasis w walletAddress mintAddress st = (Returns c, st').
Proof.
  destruct (costBasisFile st) as [content |] eqn:Hfile.
  - destruct (JSON_parse w content) as [[| entries] |] eqn:Hparse.
    + rewrite (trackCostBasis_null st content Hfile Hparse). now eauto.
    + rewrite (trackCostBasis_records st content entries Hfile Hparse). now eauto.
    + rewrite (trackCostBasis_corrupt st content Hfile Hparse).
      destruct (reinitialized_returns st) as (st' & ->). now eauto.
  - rewrite (trackCostBasis_missing st Hfile).
    destruct (reinitialized_returns st) as (st' & ->). now eauto.
Qed.

End CostBasis.

(** The key of two texts without an underscore has one underscore, and
    so names no inherited property: those names have none, or four. *)
Lemma underscores_append a b :
  underscores (a +:+ b) = (underscores a + underscores b)%nat.
Proof.
  induction a as [| c a IH]; [reflexivity |].
  change (underscores (String c (a +:+ b))
          = (underscores (String c a) + underscores b)%nat).
  cbn [underscores]. rewrite IH. lia.
Qed.

Lemma store_key_names_nothing_inherited walletAddress mintAddress :
  underscores walletAddress = 0%nat ->
  underscores mintAddress = 0%nat ->
  names_inherited (store_key walletAddress mintAddress) = false.
Proof.
  intros Hw Hm.
  assert (Hone : underscores (store_key walletAddress mintAddress) = 1%nat).
  { unfold store_key. rewrite !underscores_append, Hw, Hm. reflexivity. }
  generalize dependent (store_key walletAddress mintAddress). intros key Hone.
  unfold names_inherited, Object_prototype_names. cbn [existsb].
  repeat match goal with
         | |- context [String.eqb key ?name] =>
             destruct (String.eqb_spec key name) as [Heq | _];
             [rewrite Heq in Hone; vm_compute in Hone; discriminate |]
         end.
  reflexivity.
Qed.

(** The pair of an underscore and [proto__] is one whose key does name
    an inherited property. *)
Lemma store_key_can_name_inherited :
  store_key "_" "proto__" = "__proto__"
  /\ names_inherited (store_key "_" "proto__") = true.
Proof. split; reflexivity. Qed.

(** C6.  For a wallet and mint pair whose key names no inherited
    property (as every key of two base58 texts does) and that has no
    record in the persisted store, [_trackCostBasis] returns exactly 0 and
    does not throw, also when the file cannot be read; and when it cannot
    be read (it did not exist) and the write goes through, the file holds
    the empty object afterwards. *)
Theorem trackCostBasis_no_record
    (w : World) (walletAddress mintAddress : string) (st : State) :
  names_inherited (store_key walletAddress mintAddress) = false ->
  recorded w walletAddress mintAddress st = None ->
  exists st',
    _trackCostBasis w walletAddress mintAddress st = (Returns 0%float, st')
    /\ (costBasisFile st = None -> writeFile_result w "{}" = Returns tt ->
        costBasisFile st' = Some "{}").
Proof.
  unfold recorded. intros _ Hrec.
  destruct (costBasisFile st) as [content |] eqn:Hfile.
  - destruct (JSON_parse w content) as [[| entries] |] eqn:Hparse.
    + rewrite (trackCostBasis_null w _ _ st content Hfile Hparse).
      eexists. split; [reflexivity | discriminate].
    + rewrite (trackCostBasis_records w _ _ st content entries Hfile Hparse), Hrec.
      eexists. split; [reflexivity | discriminate].
    + rewrite (trackCostBasis_corrupt w _ _ st content Hfile Hparse).
      destruct (reinitialized_returns w st) as (st' & ->).
      exists st'. split; [reflexivity | discriminate].
  - rewrite (trackCostBasis_missing w _ _ st Hfile). unfold reinitialized.
    destruct (writeFile_result w "{}") as [[] | message];
      eexists; (split; [reflexivity |]).
    + reflexivity.
    + discriminate.
Qed.


(** ** The gains report *)

(** [Promise.all] over promises that are all fulfilled. *)
Lemma Promise_all_fulfilled {A} (xs : list A) :
  Promise_all (map (fun x => promise (Returns x)) xs) = Returns xs.
Proof.
  induction xs as [| x xs IH]; [reflexivity |].
  cbn [map Promise_all settled]. now rewrite IH.
Qed.

(** Filtering with an [async] callback keeps every element: what the
    callback hands to [filter] is a promise, whatever it settles to. *)
Lemma Array_filter_async_keeps_all {A B} (f : A -> M B) (xs : list A) (st : State) :
  exists st', Array_filter ToBoolean_object (fun x => async (f x)) xs st = (Returns xs, st').
Proof.
  revert st. induction xs as [| x xs IH]; intros st.
  - now exists st.
  - cbn [Array_filter]. unfold bind at 1, async at 1.
    destruct (f x st) as [o st1].
    unfold bind at 1. destruct (IH st1) as (st2 & ->).
    cbn. now eauto.
Qed.

(** Mapping with an [async] callback whose body always returns yields
    fulfilled promises, one per element, each related to its element as
    the body guarantees. *)
Lemma Array_map_async_fulfilled {A B} (f : A -> M B) (P : A -> B -> Prop)
    (xs : list A) (st : State) :
  (forall x st0, exists y st1, f x st0 = (Returns y, st1) /\ P x y) ->
  exists ys st',
    Array_map (fun x => async (f x)) xs st
    = (Returns (map (fun y => promise (Returns y)) ys), st')
    /\ Forall2 P xs ys.
Proof.
  intros Hf. revert st. induction xs as [| x xs IH]; intros st.
  - exists [], st. split; [reflexivity | constructor].
  - cbn [Array_map]. unfold bind at 1, async at 1.
    destruct (Hf x st) as (y & st1 & -> & Hy).
    unfold bind at 1. destruct (IH st1) as (ys & st2 & -> & Hys).
    exists (y :: ys), st2. split; [reflexivity | now constructor].
Qed.

Section Gains.

Variables (w : World) (now : Z) (walletAddress : string).

(** The callback of the [map] always returns, and what it returns is
    built from its holding. *)
Lemma gain_of_returns account st :
  exists r st',
    gain_of w now walletAddress account st = (Returns r, st')
    /\ built_from account r.
Proof.
  unfold gain_of, bind.
  destruct (getTokenPrice_returns w now (mint account) st) as (p & st1 & ->).
  destruct (trackCostBasis_returns w walletAddress (mint account) st1) as (c & st2 & ->).
  eexists _, _. split; [reflexivity |].
  repeat split.
Qed.

(** The three ways [calculateGains] can end. *)
Lemma calculateGains_invalid_address st message :
  PublicKey w walletAddress = Throws message ->
  calculateGains w now walletAddress st
  = (Throws ("Wallet gains calculation failed: " +:+ "Invalid Solana wallet address"),
     with_trace
       (trace st
        ++ [Log error ("Invalid wallet address: " +:+ walletAddress);
            Log error ("Gains calculation error: " +:+ "Invalid Solana wallet address")])
       st).
Proof.
  intros Hkey.
  unfold calculateGains, try_catch, bind at 1, _validateWalletAddress, try_catch, lift.
  rewrite Hkey. cbn. now rewrite <- app_assoc.
Qed.

Lemma calculateGains_fetch_failure st publicKey message :
  PublicKey w walletAddress = Returns publicKey ->
  getParsedTokenAccountsByOwner w publicKey = Throws message ->
  calculateGains w now walletAddress st
  = (Throws ("Wallet gains calculation failed: " +:+ message),
     with_trace
       (trace st
        ++ [GetParsedTokenAccountsByOwner publicKey;
            Log error ("Gains calculation error: " +:+ message)])
       st).
Proof.
  intros Hkey Hrpc.
  unfold calculateGains, try_catch, bind at 1, _validateWalletAddress, try_catch, lift.
  rewrite Hkey. unfold bind at 1, call. rewrite Hrpc.
  cbn. now rewrite <- app_assoc.
Qed.

Lemma calculateGains_report st publicKey tokenAccounts :
  PublicKey w walletAddress = Returns publicKey ->
  getParsedTokenAccountsByOwner w publicKey = Returns tokenAccounts ->
  exists gainResults st',
    calculateGains w now walletAddress st
    = (Returns (List.filter (fun result => gt0 (totalValue result)) gainResults), st')
    /\ Forall2 built_from tokenAccounts gainResults.
Proof.
  intros Hkey Hrpc.
  unfold calculateGains, try_catch, bind at 1, _validateWalletAddress, try_catch, lift.
  rewrite Hkey. unfold bind at 1, call. rewrite Hrpc.
  unfold bind at 1.
  match goal with |- context [Array_filter _ ?cb tokenAccounts ?s] =>
    destruct (Array_filter_async_keeps_all
                (fun account => _isTradableMemeToken w now (mint account))
                tokenAccounts s) as (st1 & ->)
  end.
  unfold bind at 1.
  destruct (Array_map_async_fulfilled (gain_of w now walletAddress) built_from
              tokenAccounts st1 gain_of_returns) as (gainResults & st2 & -> & Hbuilt).
  unfold bind at 1. rewrite Promise_all_fulfilled.
  cbn. now eauto.
Qed.

End Gains.

(** C1, at the input where the code departs from it.  In a world where
    MintA is eligible (price 2, amount 10, cost basis 5) and MintB is not
    (price 3, amount 1), [calculateGains] returns two results: the one for
    MintA, with an unrealized gain of 15, and one for MintB.  With the
    signal methods as shipped, under which neither mint is eligible, it
    returns the same two results. *)
Theorem calculateGains_reports_ineligible_holding :
  fst (_isTradableMemeToken demo 1000 "MintA" fresh) = Returns true
  /\ fst (_isTradableMemeToken demo 1000 "MintB" fresh) = Returns false
  /\ fst (calculateGains demo 1000 wallet fresh) = Returns [gainA; gainB]
  /\ unrealizedGain gainA = 15%float
  /\ token gainB = "MintB"
  /\ fst (_isTradableMemeToken shipped 1000 "MintA" fresh) = Returns false
  /\ fst (calculateGains shipped 1000 wallet fresh) = Returns [gainA; gainB].
Proof. repeat split; vm_compute; reflexivity. Qed.

(** C8, as the code has it.  Whenever [calculateGains] throws, the
    message of the error is "Wallet gains calculation failed: " followed
    by the message of the error it caught, which is also the last thing
    logged at error level; the caught message is the fixed "Invalid
    Solana wallet address" when the address is rejected, and the message
    of the holdings request's own failure otherwise. *)
Theorem calculateGains_escalation
    (w : World) (now : Z) (walletAddress : string) (st : State) (message : string) :
  fst (calculateGains w now walletAddress st) = Throws message ->
  exists (detail : string) (earlier : list Event),
    message = "Wallet gains calculation failed: " +:+ detail
    /\ trace (snd (calculateGains w now walletAddress st))
       = earlier ++ [Log error ("Gains calculation error: " +:+ detail)]
    /\ ((exists m, PublicKey w walletAddress = Throws m)
        /\ detail = "Invalid Solana wallet address"
        \/ exists publicKey,
             PublicKey w walletAddress = Returns publicKey
             /\ getParsedTokenAccountsByOwner w publicKey = Throws detail).
Proof.
  destruct (PublicKey w walletAddress) as [publicKey | m] eqn:Hkey.
  - destruct (getParsedTokenAccountsByOwner w publicKey) as [tokenAccounts | m] eqn:Hrpc.
    + destruct (calculateGains_report w now walletAddress st publicKey tokenAccounts
                  Hkey Hrpc) as (gainResults & st' & -> & _).
      discriminate.
    + rewrite (calculateGains_fetch_failure w now walletAddress st publicKey m Hkey Hrpc).
      cbn. intros [= <-].
      exists m, (trace st ++ [GetParsedTokenAccountsByOwner publicKey]).
      split; [reflexivity |].
      split; [now rewrite <- app_assoc |].
      right. now exists publicKey.
  - rewrite (calculateGains_invalid_address w now walletAddress st m Hkey).
    cbn. intros [= <-].
    exists "Invalid Solana wallet address",
      (trace st ++ [Log error ("Invalid wallet address: " +:+ walletAddress)]).
    split; [reflexivity |].
    split; [now rewrite <- app_assoc |].
    left. split; [now exists m | reflexivity].
Qed.

(** C9.  Every result that [calculateGains] returns has
    [totalValue = currentPrice * amount] and
    [unrealizedGain = totalValue - costBasis]; its [totalValue] is above
    zero, so no result with a [totalValue] of at most zero is returned,
    and none whose price is 0. *)
Theorem calculateGains_results
    (w : World) (now : Z) (walletAddress : string) (st : State)
    (results : list GainResult) :
  fst (calculateGains w now walletAddress st) = Returns results ->
  forall r, In r results ->
    totalValue r = (currentPrice r * amount r)%float
    /\ unrealizedGain r = (totalValue r - costBasis r)%float
    /\ gt0 (totalValue r) = true
    /\ le0 (totalValue r) = false
    /\ currentPrice r <> 0%float.
Proof.
  destruct (PublicKey w walletAddress) as [publicKey | m] eqn:Hkey.
  - destruct (getParsedTokenAccountsByOwner w publicKey) as [tokenAccounts | m] eqn:Hrpc.
    + destruct (calculateGains_report w now walletAddress st publicKey tokenAccounts
                  Hkey Hrpc) as (gainResults & st' & -> & Hbuilt).
      cbn. intros [= <-] r Hr.
      apply filter_In in Hr. destruct Hr as [Hin Hpos].
      assert (Hshape : exists account, built_from account r).
      { clear Hpos Hrpc. induction Hbuilt as [| account r' accounts rs Hb _ IH].
        - destruct Hin.
        - destruct Hin as [<- | Hin]; [now exists account | now apply IH]. }
      destruct Hshape as (account & _ & _ & Htotal & Hgain).
      change (gt0 (totalValue r) = true) in Hpos.
      split; [exact Htotal |]. split; [exact Hgain |]. split; [exact Hpos |].
      split.
      * apply not_true_is_false. intros Hle.
        apply le0_not_gt0 in Hle. congruence.
      * intros Hzero. rewrite Htotal, Hzero, mul_zero_not_gt0 in Hpos. discriminate.
    + rewrite (calculateGains_fetch_failure w now walletAddress st publicKey m Hkey Hrpc).
      discriminate.
  - rewrite (calculateGains_invalid_address w now walletAddress st m Hkey).
    discriminate.
Qed.

(** ** The controller *)

(** C7.  For an address that is empty or shorter than 32 characters, the
    handler answers 400 with [{ success: false, message: "Invalid wallet
    address" }] and does nothing else: the state, with its record of
    calls, is left as it was, whatever [calculateGains] is. *)
Theorem getWalletGains_rejects_short_address
    (calculateGains : string -> M (list GainResult)) (address : string) (st : State) :
  address = "" \/ (String.length address < 32)%nat ->
  getWalletGains calculateGains address st
  = (Returns (Json 400 (Failure false "Invalid wallet address")), st).
Proof.
  intros Hbad. unfold getWalletGains, try_catch.
  assert (Htest : not_string address || (String.length address <? 32)%nat = true).
  { destruct Hbad as [-> | Hshort]; [reflexivity |].
    apply orb_true_iff. right. now apply Nat.ltb_lt. }
  rewrite Htest. reflexivity.
Qed.

(** ** The theorems at concrete inputs *)

(** C2 at MintA in [demo]: CoinGecko throws, DexScreener quotes 2. *)
Lemma getTokenPrice_first_positive_source_witness :
  exists st',
    _getTokenPrice demo 1000 "MintA" fresh = (Returns 2%float, st')
    /\ fetches (trace st')
       = fetches (trace fresh)
         ++ map (fun s' => (s', "MintA")) ([CoinGecko] ++ [DexScreener])
    /\ priceCache st'
       = <["MintA" := NodeCache.Entry 2%float (NodeCache.livetime 1000 (cacheTTL_price demo))]>
           (priceCache fresh)
    /\ forall (w' : World) (now' : Z),
         now' <= 1000 + cacheTTL_price demo * 1000 ->
         _getTokenPrice w' now' "MintA" st' = (Returns 2%float, st').
Proof.
  apply (getTokenPrice_first_positive_source demo 1000 "MintA" fresh
           [CoinGecko] [Raydium] DexScreener 2%float).
  - reflexivity.
  - reflexivity.
  - repeat constructor.
  - reflexivity.
  - reflexivity.
Defined.

(** C3 at MintC in [demo]: CoinGecko throws, the two others quote
    nothing, which their fetchers turn into 0. *)
Lemma getTokenPrice_all_sources_fail_witness :
  exists st',
    _getTokenPrice demo 1000 "MintC" fresh = (Returns 0%float, st')
    /\ priceCache st' = priceCache fresh
    /\ fetches (trace st')
       = fetches (trace fresh)
         ++ [(CoinGecko, "MintC"); (DexScreener, "MintC"); (Raydium, "MintC")].
Proof.
  apply (getTokenPrice_all_sources_fail demo 1000 "MintC" fresh).
  - reflexivity.
  - intros s. destruct s; vm_compute; trivial.
Defined.

(** C4 at MintA in [demo], whose three signals hold. *)
Lemma isTradableMemeToken_two_of_three_witness :
  exists (b : bool) (st' : State),
    _isTradableMemeToken demo 1000 "MintA" fresh = (Returns b, st')
    /\ (b = true
        <-> (true = true /\ true = true) \/ (true = true /\ true = true)
            \/ (true = true /\ true = true))
    /\ tokenMetadataCache st'
       = <["MintA" := NodeCache.Entry b (NodeCache.livetime 1000 (cacheTTL_metadata demo))]>
           (tokenMetadataCache fresh)
    /\ checks (trace st')
       = checks (trace fresh)
         ++ [(TokenVolume, "MintA"); (SocialTraction, "MintA"); (TokenAge, "MintA")]
    /\ forall (w' : World) (now' : Z),
         now' <= 1000 + cacheTTL_metadata demo * 1000 ->
         _isTradableMemeToken w' now' "MintA" st' = (Returns b, st').
Proof.
  apply (isTradableMemeToken_two_of_three demo 1000 "MintA" fresh true true true);
    reflexivity.
Defined.

(** C5 fails on the code: with the volume signal throwing and the two
    other signals true, on a mint with no cached verdict,
    [_isTradableMemeToken] returns false, not true. *)
Lemma isTradableMemeToken_one_failure_two_true :
  tokenMetadataCache fresh !! "MintA" = None
  /\ signal volume_down TokenVolume "MintA" = Throws "volume feed unavailable"
  /\ signal volume_down SocialTraction "MintA" = Returns true
  /\ signal volume_down TokenAge "MintA" = Returns true
  /\ fst (_isTradableMemeToken volume_down 1000 "MintA" fresh) = Returns false
  /\ fst (_isTradableMemeToken volume_down 1000 "MintA" fresh) <> Returns true.
Proof. repeat split; try (vm_compute; reflexivity). vm_compute. discriminate. Qed.

(** C5 as amended, at the same input. *)
Lemma isTradableMemeToken_signal_failure_witness :
  exists (reported : string) (st' : State),
    _isTradableMemeToken volume_down 1000 "MintA" fresh = (Returns false, st')
    /\ tokenMetadataCache st' = tokenMetadataCache fresh
    /\ trace st'
       = trace fresh
         ++ [Check TokenVolume "MintA"; Check SocialTraction "MintA";
             Check TokenAge "MintA";
             Log warn ("Token detection error: " +:+ reported)].
Proof.
  apply (isTradableMemeToken_signal_failure volume_down 1000 "MintA" fresh
           TokenVolume "volume feed unavailable");
    reflexivity.
Defined.

(** C6 at a store file that does not exist. *)
Lemma trackCostBasis_no_record_witness :
  exists st',
    _trackCostBasis demo wallet "MintB" no_store = (Returns 0%float, st')
    /\ (costBasisFile no_store = None -> writeFile_result demo "{}" = Returns tt ->
        costBasisFile st' = Some "{}").
Proof.
  apply (trackCostBasis_no_record demo wallet "MintB" no_store).
  - vm_compute. reflexivity.
  - reflexivity.
Defined.


(** C7 at a five-character address, with the tracker's own
    [calculateGains] behind the handler. *)
Lemma getWalletGains_rejects_short_address_witness :
  getWalletGains (calculateGains demo 1000) "short" fresh
  = (Returns (Json 400 (Failure false "Invalid wallet address")), fresh).
Proof.
  apply (getWalletGains_rejects_short_address (calculateGains demo 1000) "short" fresh).
  right. cbn. lia.
Defined.

(** C8 fails on the code: when the holdings request fails, the message of
    the error that [calculateGains] throws contains the message of that
    failure. *)
Lemma calculateGains_message_contains_diagnostic :
  getParsedTokenAccountsByOwner rpc_down wallet
  = Throws "connect ECONNREFUSED 127.0.0.1:8899"
  /\ fst (calculateGains rpc_down 1000 wallet fresh)
     = Throws "Wallet gains calculation failed: connect ECONNREFUSED 127.0.0.1:8899"
  /\ contains "connect ECONNREFUSED 127.0.0.1:8899"
       "Wallet gains calculation failed: connect ECONNREFUSED 127.0.0.1:8899"
     = true.
Proof. repeat split; vm_compute; reflexivity. Qed.

(** C8 as amended, at the same input. *)
Lemma calculateGains_escalation_witness :
  exists (detail : string) (earlier : list Event),
    "Wallet gains calculation failed: connect ECONNREFUSED 127.0.0.1:8899"
    = "Wallet gains calculation failed: " +:+ detail
    /\ trace (snd (calculateGains rpc_down 1000 wallet fresh))
       = earlier ++ [Log error ("Gains calculation error: " +:+ detail)]
    /\ ((exists m, PublicKey rpc_down wallet = Throws m)
        /\ detail = "Invalid Solana wallet address"
        \/ exists publicKey,
             PublicKey rpc_down wallet = Returns publicKey
             /\ getParsedTokenAccountsByOwner rpc_down publicKey = Throws detail).
Proof.
  apply (calculateGains_escalation rpc_down 1000 wallet fresh
           "Wallet gains calculation failed: connect ECONNREFUSED 127.0.0.1:8899").
  vm_compute. reflexivity.
Defined.

(** C9 at the first of the two results for the holdings of [demo]. *)
Lemma calculateGains_results_witness :
  totalValue gainA = (currentPrice gainA * amount gainA)%float
  /\ unrealizedGain gainA = (totalValue gainA - costBasis gainA)%float
  /\ gt0 (totalValue gainA) = true
  /\ le0 (totalValue gainA) = false
  /\ currentPrice gainA <> 0%float.
Proof.
  apply (calculateGains_results demo 1000 wallet fresh [gainA; gainB]).
  - vm_compute. reflexivity.
  - left. reflexivity.
Defined.

(** * Further properties *)

(** ** The price oracle, in every state of its cache *)

Lemma first_positive_cases answers :
  first_positive answers = 0%float \/ gt0 (first_positive answers) = true.
Proof.
  induction answers as [| [p | message] rest IH]; cbn [first_positive].
  - now left.
  - destruct (gt0 p) eqn:Hp; [now right | exact IH].
  - exact IH.
Qed.

Lemma gt0_zero : gt0 0%float = false.
Proof. reflexivity. Qed.

Section Resolution.

Variables (w : World) (now : Z) (mintAddress : string).

(** The loop as a function of the answers of the sources. *)
Lemma try_sources_first_positive srcs st :
  exists st',
    try_sources w now mintAddress (map (fun s => fetcher s w) srcs) st
    = (Returns (first_positive (map (answer w mintAddress) srcs)), st')
    /\ priceCache st'
       = cache_after w now mintAddress
           (first_positive (map (answer w mintAddress) srcs)) (priceCache st)
    /\ tokenMetadataCache st' = tokenMetadataCache st
    /\ costBasisFile st' = costBasisFile st.
Proof.
  revert st. induction srcs as [| s srcs IH]; intros st.
  - exists st. now cbn.
  - cbn [map try_sources first_positive].
    unfold bind at 1, try_catch, bind at 1. rewrite fetcher_run.
    destruct (answer w mintAddress s) as [q | message].
    + destruct (gt0 q) eqn:Hq.
      * cbn. eexists. split; [reflexivity |].
        unfold cache_after. rewrite Hq. cbn. auto.
      * cbn. destruct (IH (with_trace (trace st ++ [Fetch s mintAddress]) st))
          as (st' & -> & Hc & Hm & Hf).
        exists st'. auto.
    + cbn.
      match goal with |- context [try_sources _ _ _ _ ?s0] =>
        destruct (IH s0) as (st' & -> & Hc & Hm & Hf) end.
      exists st'. auto.
Qed.

(** Reading the cache before the loop. *)
Lemma getTokenPrice_cases st :
  (exists p,
      NodeCache.get now mintAddress (priceCache st) = (Some p, priceCache st)
      /\ ToBoolean p = true
      /\ (exists e, priceCache st !! mintAddress = Some e /\ NodeCache.v e = p)
      /\ _getTokenPrice w now mintAddress st = (Returns p, st))
  \/ (exists cache,
        (cache = priceCache st \/ cache = delete mintAddress (priceCache st))
        /\ _getTokenPrice w now mintAddress st
           = try_sources w now mintAddress (priceSources w) (with_priceCache cache st)).
Proof.
  unfold _getTokenPrice, bind, priceCache_get, NodeCache.get.
  destruct (priceCache st !! mintAddress) as [e |] eqn:He.
  - destruct (NodeCache.check now e) eqn:Hlive.
    + destruct (ToBoolean (NodeCache.v e)) eqn:Htruthy.
      * left. exists (NodeCache.v e). rewrite with_priceCache_same.
        repeat split; try assumption. now exists e.
      * right. exists (priceCache st). split; [now left | reflexivity].
    + right. exists (delete mintAddress (priceCache st)). split; [now right | reflexivity].
  - right. exists (priceCache st). split; [now left | reflexivity].
Qed.

End Resolution.

Lemma prices_positive_delete key st :
  prices_positive st ->
  prices_positive (with_priceCache (delete key (priceCache st)) st).
Proof.
  intros Hinv k e. cbn. intros Hk.
  apply lookup_delete_Some in Hk. destruct Hk as [_ Hk]. now apply (Hinv k).
Qed.

Lemma prices_positive_cache_after w now key p st st' :
  prices_positive st ->
  p = 0%float \/ gt0 p = true ->
  priceCache st' = cache_after w now key p (priceCache st) ->
  prices_positive st'.
Proof.
  intros Hinv Hp Hc k e. rewrite Hc. unfold cache_after.
  destruct (gt0 p) eqn:Hgt.
  - intros Hk. apply lookup_insert_Some in Hk.
    destruct Hk as [[_ <-] | [_ Hk]]; [exact Hgt | now apply (Hinv k)].
  - apply Hinv.
Qed.

(** The invariant of the price cache through one call. *)
Lemma getTokenPrice_invariant
    (w : World) (now : Z) (mintAddress : string) (st : State) :
  prices_positive st ->
  exists p st',
    _getTokenPrice w now mintAddress st = (Returns p, st')
    /\ (p = 0%float \/ gt0 p = true)
    /\ prices_positive st'.
Proof.
  intros Hinv.
  destruct (getTokenPrice_cases w now mintAddress st)
    as [(p & _ & _ & (e & He & <-) & ->) | (cache & Hcache & ->)].
  - exists (NodeCache.v e), st. split; [reflexivity |].
    split; [right; now apply (Hinv mintAddress) | exact Hinv].
  - rewrite priceSources_order.
    destruct (try_sources_first_positive w now mintAddress source_order
                (with_priceCache cache st)) as (st' & -> & Hc & _ & _).
    eexists _, st'. split; [reflexivity |].
    split; [apply first_positive_cases |].
    eapply prices_positive_cache_after; [| apply first_positive_cases | exact Hc].
    destruct Hcache as [-> | ->].
    + now rewrite with_priceCache_same.
    + now apply prices_positive_delete.
Qed.

(** X1.  In a state whose price cache holds only prices above zero,
    [_getTokenPrice] does not throw, whatever the sources do; the price it
    returns is 0 or above zero (never negative, never NaN); and the price
    cache it leaves holds only prices above zero again. *)
Theorem getTokenPrice_keeps_prices_positive
    (w : World) (now : Z) (mintAddress : string) (st : State) :
  prices_positive st ->
  exists p st',
    _getTokenPrice w now mintAddress st = (Returns p, st')
    /\ (p = 0%float \/ gt0 p = true)
    /\ prices_positive st'.
Proof. apply getTokenPrice_invariant. Qed.

(** X2.  Two calls of [_getTokenPrice] in a row for a mint that was
    absent from the price cache, in the same world and the second before
    a price cached by the first expires, return the same price. *)
Theorem getTokenPrice_twice_same_price
    (w : World) (now now' : Z) (mintAddress : string) (st : State) :
  priceCache st !! mintAddress = None ->
  now' <= now + cacheTTL_price w * 1000 ->
  fst (_getTokenPrice w now' mintAddress (snd (_getTokenPrice w now mintAddress st)))
  = fst (_getTokenPrice w now mintAddress st).
Proof.
  intros Habs Hle.
  rewrite (getTokenPrice_absent w now mintAddress st Habs), priceSources_order.
  destruct (try_sources_first_positive w now mintAddress source_order st)
    as (st' & -> & Hc & _ & _).
  cbn [fst snd]. unfold cache_after in Hc.
  destruct (gt0 (first_positive (map (answer w mintAddress) source_order))) eqn:Hgt.
  - rewrite (getTokenPrice_cached w now mintAddress w now' st' _ Hgt Hle);
      [reflexivity |].
    rewrite Hc. apply lookup_insert_eq.
  - rewrite (getTokenPrice_absent w now' mintAddress st') by (now rewrite Hc).
    rewrite priceSources_order.
    destruct (try_sources_first_positive w now' mintAddress source_order st')
      as (st'' & -> & _). reflexivity.
Qed.

(** X3.  A cached price that has expired counts for nothing: the call
    goes as it would on the cache without the entry. *)
Theorem getTokenPrice_expired_as_absent
    (w : World) (now : Z) (mintAddress : string) (st : State)
    (e : NodeCache.entry number) :
  priceCache st !! mintAddress = Some e ->
  NodeCache.t e <> 0 ->
  NodeCache.t e < now ->
  _getTokenPrice w now mintAddress st
  = _getTokenPrice w now mintAddress
      (with_priceCache (delete mintAddress (priceCache st)) st).
Proof.
  intros He Hnz Hlt.
  assert (Hdead : NodeCache.check now e = false).
  { unfold NodeCache.check.
    apply negb_false_iff, andb_true_iff. split.
    - apply negb_true_iff, Z.eqb_neq. exact Hnz.
    - apply Z.ltb_lt. exact Hlt. }
  unfold _getTokenPrice, bind at 1, priceCache_get, NodeCache.get.
  rewrite He, Hdead.
  symmetry. apply getTokenPrice_absent. cbn. apply lookup_delete_eq.
Qed.

(** X4.  A fetcher makes one request and touches nothing else; when it
    returns, what it returns is a number that is 0 or truthy, so never
    NaN; when it throws, it throws what its request threw. *)
Theorem fetcher_one_request_no_NaN
    (w : World) (s : PriceSource) (mintAddress : string) (st : State) :
  snd (fetcher s w mintAddress st)
  = with_trace (trace st ++ [Fetch s mintAddress]) st
  /\ match fst (fetcher s w mintAddress st) with
     | Returns x => (x = 0%float \/ ToBoolean x = true) /\ (x =? x)%float = true
     | Throws message => quote w s mintAddress = Throws message
     end.
Proof.
  rewrite fetcher_run. cbn [fst snd]. split; [reflexivity |].
  unfold answer. destruct (quote w s mintAddress) as [[x |] | message]; cbn.
  - unfold or_zero. destruct (ToBoolean x) eqn:Hx.
    + split; [now right |].
      unfold ToBoolean in Hx. now apply andb_true_iff in Hx.
    + split; [now left | reflexivity].
  - split; [now left | reflexivity].
  - reflexivity.
Qed.

(** ** The eligibility filter, as shipped and in general *)

(** X5.  With the three signal methods as the class ships them, a mint
    that is absent from the metadata cache is judged not tradable: the
    three methods are called, nothing is logged, and false is what the
    metadata cache then holds for the mint. *)
Theorem isTradableMemeToken_with_placeholders
    (w : World) (now : Z) (mintAddress : string) (st : State) :
  signal w = placeholder_signal ->
  tokenMetadataCache st !! mintAddress = None ->
  _isTradableMemeToken w now mintAddress st
  = (Returns false,
     with_tokenMetadataCache
       (<[mintAddress := NodeCache.Entry false
                           (NodeCache.livetime now (cacheTTL_metadata w))]>
          (tokenMetadataCache st))
       (with_trace
          (trace st ++ [Check TokenVolume mintAddress;
                        Check SocialTraction mintAddress;
                        Check TokenAge mintAddress]) st)).
Proof.
  intros Hsig Habs.
  rewrite (isTradableMemeToken_absent w now mintAddress st Habs), Hsig.
  reflexivity.
Qed.

(** What [_isTradableMemeToken] leaves alone. *)
Lemma isTradableMemeToken_leaves_store
    (w : World) (now : Z) (mintAddress : string) (st : State) :
  exists b st',
    _isTradableMemeToken w now mintAddress st = (Returns b, st')
    /\ priceCache st' = priceCache st
    /\ costBasisFile st' = costBasisFile st.
Proof.
  unfold _isTradableMemeToken, try_catch, bind at 1, tokenMetadataCache_get.
  destruct (NodeCache.get now mintAddress (tokenMetadataCache st)) as [[b |] c].
  - exists b. eexists. split; [reflexivity |]. now cbn.
  - unfold bind, async, _checkTokenVolume, _checkSocialTraction, _checkTokenAge,
      call, lift.
    cbn -[Promise_all two_or_more].
    destruct (Promise_all _) as [signals | message];
      eexists _, _; (split; [reflexivity |]); now cbn.
Qed.

(** X6.  [_isTradableMemeToken] does not throw, whatever its signals do,
    and it leaves the price cache and the cost-basis file as they were. *)
Theorem isTradableMemeToken_frame
    (w : World) (now : Z) (mintAddress : string) (st : State) :
  exists b st',
    _isTradableMemeToken w now mintAddress st = (Returns b, st')
    /\ priceCache st' = priceCache st
    /\ costBasisFile st' = costBasisFile st.
Proof. apply isTradableMemeToken_leaves_store. Qed.

(** ** The cost-basis store, beyond the missing record *)

(** X7.  When the file parses to an object that holds a truthy number
    under the key of the pair, [_trackCostBasis] returns that number and
    changes nothing: no write, no log. *)
Theorem trackCostBasis_returns_record
    (w : World) (walletAddress mintAddress : string) (st : State) (x : number) :
  recorded w walletAddress mintAddress st = Some x ->
  ToBoolean x = true ->
  _trackCostBasis w walletAddress mintAddress st = (Returns x, st).
Proof.
  unfold recorded. intros Hrec Hx.
  destruct (costBasisFile st) as [content |] eqn:Hfile; [| discriminate].
  destruct (JSON_parse w content) as [[| entries] |] eqn:Hparse; try discriminate.
  rewrite (trackCostBasis_records w _ _ st content entries Hfile Hparse), Hrec.
  unfold or_zero. now rewrite Hx.
Qed.

(** What [_trackCostBasis] leaves alone. *)
Lemma trackCostBasis_leaves_caches
    (w : World) (walletAddress mintAddress : string) (st : State) :
  exists c st',
    _trackCostBasis w walletAddress mintAddress st = (Returns c, st')
    /\ priceCache st' = priceCache st
    /\ tokenMetadataCache st' = tokenMetadataCache st
    /\ (costBasisFile st' <> costBasisFile st ->
        costBasisFile st' = Some "{}" /\ unusable w st).
Proof.
  assert (Hre : unusable w st ->
    exists st', reinitialized w st = (Returns 0%float, st')
      /\ priceCache st' = priceCache st
      /\ tokenMetadataCache st' = tokenMetadataCache st
      /\ (costBasisFile st' <> costBasisFile st ->
          costBasisFile st' = Some "{}" /\ unusable w st)).
  { intros Hun. unfold reinitialized.
    destruct (writeFile_result w "{}"); eexists; (split; [reflexivity |]); cbn.
    - split; [reflexivity |]. split; [reflexivity |].
      intros _. split; [reflexivity | exact Hun].
    - split; [reflexivity |]. split; [reflexivity |].
      intros Hneq. now destruct Hneq. }
  unfold unusable in *.
  destruct (costBasisFile st) as [content |] eqn:Hfile.
  - destruct (JSON_parse w content) as [[| entries] |] eqn:Hparse.
    + rewrite (trackCostBasis_null w _ _ st content Hfile Hparse).
      eexists _, _. split; [reflexivity |]. cbn.
      split; [reflexivity |]. split; [reflexivity |].
      intros Hneq. now destruct Hneq.
    + rewrite (trackCostBasis_records w _ _ st content entries Hfile Hparse).
      eexists _, _. split; [reflexivity |].
      split; [reflexivity |]. split; [reflexivity |].
      intros Hneq. now destruct Hneq.
    + rewrite (trackCostBasis_corrupt w _ _ st content Hfile Hparse).
      destruct (Hre eq_refl) as (st' & -> & H). now exists 0%float, st'.
  - rewrite (trackCostBasis_missing w _ _ st Hfile).
    destruct (Hre I) as (st' & -> & H). now exists 0%float, st'.
Qed.

(** X8.  [_trackCostBasis] does not throw and leaves both caches as they
    were; a file it has changed holds the empty object, and was
    unreadable or rejected by [JSON.parse] before: a file that parses is
    never written. *)
Theorem trackCostBasis_frame
    (w : World) (walletAddress mintAddress : string) (st : State) :
  exists c st',
    _trackCostBasis w walletAddress mintAddress st = (Returns c, st')
    /\ priceCache st' = priceCache st
    /\ tokenMetadataCache st' = tokenMetadataCache st
    /\ (costBasisFile st' <> costBasisFile st ->
        costBasisFile st' = Some "{}" /\ unusable w st).
Proof. apply trackCostBasis_leaves_caches. Qed.

(** X9.  When the file is unreadable or rejected by [JSON.parse] and the
    write of the empty object fails, [_trackCostBasis] still returns 0:
    it logs the failure of the write at error level and leaves the file
    as it was. *)
Theorem trackCostBasis_write_failure
    (w : World) (walletAddress mintAddress : string) (st : State) (message : string) :
  unusable w st ->
  writeFile_result w "{}" = Throws message ->
  _trackCostBasis w walletAddress mintAddress st
  = (Returns 0%float,
     with_trace (trace st ++ [Log error ("Cost basis tracking error: " +:+ message)]) st).
Proof.
  unfold unusable. intros Hun Hwrite.
  destruct (costBasisFile st) as [content |] eqn:Hfile.
  - rewrite (trackCostBasis_corrupt w _ _ st content Hfile Hun).
    unfold reinitialized. now rewrite Hwrite.
  - rewrite (trackCostBasis_missing w _ _ st Hfile).
    unfold reinitialized. now rewrite Hwrite.
Qed.

(** X10.  Asked twice in a row about the same pair, [_trackCostBasis]
    gives the same answer twice (given that [JSON.parse] reads the text it
    writes as the empty object). *)
Theorem trackCostBasis_twice_same_answer
    (w : World) (walletAddress mintAddress : string) (st : State) :
  JSON_parse w "{}" = Some (JRecords ∅) ->
  fst (_trackCostBasis w walletAddress mintAddress
         (snd (_trackCostBasis w walletAddress mintAddress st)))
  = fst (_trackCostBasis w walletAddress mintAddress st).
Proof.
  intros Hempty.
  assert (Hre : unusable w st ->
    fst (_trackCostBasis w walletAddress mintAddress (snd (reinitialized w st)))
    = fst (reinitialized w st)).
  { intros Hun. unfold reinitialized.
    destruct (writeFile_result w "{}") as [u | message] eqn:Hwrite; cbn [fst snd].
    - rewrite (trackCostBasis_records w _ _ (with_costBasisFile (Some "{}") st)
                 "{}" ∅ eq_refl Hempty).
      now rewrite lookup_empty.
    - unfold unusable in Hun.
      match goal with |- context [_trackCostBasis _ _ _ ?s] => set (st1 := s) end.
      destruct (costBasisFile st) as [content |] eqn:Hfile.
      + rewrite (trackCostBasis_corrupt w _ _ st1 content Hfile Hun).
        unfold reinitialized. now rewrite Hwrite.
      + rewrite (trackCostBasis_missing w _ _ st1 Hfile).
        unfold reinitialized. now rewrite Hwrite. }
  unfold unusable in Hre.
  destruct (costBasisFile st) as [content |] eqn:Hfile.
  - destruct (JSON_parse w content) as [[| entries] |] eqn:Hparse.
    + rewrite (trackCostBasis_null w _ _ st content Hfile Hparse). cbn [fst snd].
      match goal with |- context [_trackCostBasis _ _ _ ?s] => set (st1 := s) end.
      now rewrite (trackCostBasis_null w _ _ st1 content Hfile Hparse).
    + rewrite (trackCostBasis_records w _ _ st content entries Hfile Hparse).
      cbn [fst snd].
      now rewrite (trackCostBasis_records w _ _ st content entries Hfile Hparse).
    + rewrite (trackCostBasis_corrupt w _ _ st content Hfile Hparse).
      now apply Hre.
  - rewrite (trackCostBasis_missing w _ _ st Hfile). now apply Hre.
Qed.

(** ** The gains report, beyond the shape of a result *)

(** Mapping with an [async] callback whose body always returns from a
    state that satisfies [I], and keeps [I]. *)
Lemma Array_map_async_invariant {A B} (f : A -> M B) (I : State -> Prop)
    (P : A -> B -> Prop) (xs : list A) (st : State) :
  (forall x st0, I st0 -> exists y st1, f x st0 = (Returns y, st1) /\ P x y /\ I st1) ->
  I st ->
  exists ys st',
    Array_map (fun x => async (f x)) xs st
    = (Returns (map (fun y => promise (Returns y)) ys), st')
    /\ Forall2 P xs ys
    /\ I st'.
Proof.
  intros Hf. revert st. induction xs as [| x xs IH]; intros st Hst.
  - exists [], st. split; [reflexivity |]. split; [constructor | exact Hst].
  - cbn [Array_map]. unfold bind at 1, async at 1.
    destruct (Hf x st Hst) as (y & st1 & -> & Hy & Hst1).
    unfold bind at 1. destruct (IH st1 Hst1) as (ys & st2 & -> & Hys & Hst2).
    exists (y :: ys), st2. split; [reflexivity |]. split; [now constructor | exact Hst2].
Qed.

(** The eligibility pass of [calculateGains] keeps every account and
    leaves the price cache and the cost-basis file alone. *)
Lemma eligibility_pass w now (xs : list TokenAccount) st :
  exists st',
    Array_filter ToBoolean_object
      (fun account => async (_isTradableMemeToken w now (mint account))) xs st
    = (Returns xs, st')
    /\ priceCache st' = priceCache st
    /\ costBasisFile st' = costBasisFile st.
Proof.
  revert st. induction xs as [| x xs IH]; intros st.
  - now exists st.
  - cbn [Array_filter]. unfold bind at 1, async at 1.
    destruct (isTradableMemeToken_leaves_store w now (mint x) st)
      as (b & st1 & -> & Hp1 & Hf1).
    unfold bind at 1. destruct (IH st1) as (st2 & -> & Hp2 & Hf2).
    cbn. exists st2. split; [reflexivity |]. split; congruence.
Qed.

Lemma prices_positive_same_cache st st' :
  priceCache st' = priceCache st -> prices_positive st -> prices_positive st'.
Proof. unfold prices_positive. now intros ->. Qed.

Lemma gain_of_invariant w now walletAddress account st :
  prices_positive st ->
  exists r st',
    gain_of w now walletAddress account st = (Returns r, st')
    /\ priced_result account r
    /\ prices_positive st'.
Proof.
  intros Hinv. unfold gain_of, bind.
  destruct (getTokenPrice_invariant w now (mint account) st Hinv)
    as (p & st1 & -> & Hp & Hinv1).
  destruct (trackCostBasis_leaves_caches w walletAddress (mint account) st1)
    as (c & st2 & -> & Hc & _).
  eexists _, _. split; [reflexivity |].
  split; [| exact (prices_positive_same_cache st1 st2 Hc Hinv1)].
  split; [repeat split | exact Hp].
Qed.

(** A successful run of [calculateGains], from a price cache that holds
    only prices above zero. *)
Lemma calculateGains_report_invariant w now walletAddress st publicKey tokenAccounts :
  PublicKey w walletAddress = Returns publicKey ->
  getParsedTokenAccountsByOwner w publicKey = Returns tokenAccounts ->
  prices_positive st ->
  exists gainResults st',
    calculateGains w now walletAddress st
    = (Returns (List.filter (fun result => gt0 (totalValue result)) gainResults), st')
    /\ Forall2 priced_result tokenAccounts gainResults
    /\ prices_positive st'.
Proof.
  intros Hkey Hrpc Hinv.
  unfold calculateGains, try_catch, bind at 1, _validateWalletAddress, try_catch, lift.
  rewrite Hkey. unfold bind at 1, call. rewrite Hrpc.
  unfold bind at 1.
  match goal with |- context [Array_filter _ _ tokenAccounts ?s] =>
    destruct (eligibility_pass w now tokenAccounts s) as (st1 & -> & Hp1 & _)
  end.
  assert (Hinv1 : prices_positive st1)
    by (apply (prices_positive_same_cache _ _ Hp1); exact Hinv).
  unfold bind at 1.
  destruct (Array_map_async_invariant (gain_of w now walletAddress) prices_positive
              priced_result tokenAccounts st1
              (fun x st0 H => gain_of_invariant w now walletAddress x st0 H) Hinv1)
    as (gainResults & st2 & -> & Hbuilt & Hinv2).
  unfold bind at 1. rewrite Promise_all_fulfilled.
  cbn. eexists _, _. split; [reflexivity |]. split; [exact Hbuilt | exact Hinv2].
Qed.

Lemma Forall2_In_r {A B} (P : A -> B -> Prop) xs ys y :
  Forall2 P xs ys -> In y ys -> exists x, In x xs /\ P x y.
Proof.
  induction 1 as [| x y' xs ys Hxy _ IH]; intros Hin.
  - destruct Hin.
  - destruct Hin as [<- | Hin].
    + exists x. split; [now left | exact Hxy].
    + destruct (IH Hin) as (x' & Hx' & HP). exists x'. split; [now right | exact HP].
Qed.

Lemma sublist_map_filter {A B} (f : A -> B) (keep : A -> bool) (l : list A) :
  sublist (map f (List.filter keep l)) (map f l).
Proof.
  induction l as [| a l IH]; cbn.
  - constructor.
  - destruct (keep a); cbn; [now apply sublist_skip | now apply sublist_cons].
Qed.

Lemma built_from_holdings accounts rs :
  Forall2 built_from accounts rs ->
  map (fun r => (token r, amount r)) rs
  = map (fun account => (mint account, uiAmount account)) accounts.
Proof.
  induction 1 as [| account r accounts rs (Ht & Ha & _) _ IH]; cbn.
  - reflexivity.
  - now rewrite Ht, Ha, IH.
Qed.

(** X11.  For an address that [PublicKey] rejects, [calculateGains]
    throws "Wallet gains calculation failed: Invalid Solana wallet
    address", whatever [PublicKey] threw; it logs the address and the
    failure at error level, and does nothing else: no request to the
    chain, to a price source or to a signal, no change to a cache or to
    the cost-basis file. *)
Theorem calculateGains_rejected_address
    (w : World) (now : Z) (walletAddress : string) (st : State) (message : string) :
  PublicKey w walletAddress = Throws message ->
  calculateGains w now walletAddress st
  = (Throws "Wallet gains calculation failed: Invalid Solana wallet address",
     with_trace
       (trace st
        ++ [Log error ("Invalid wallet address: " +:+ walletAddress);
            Log error "Gains calculation error: Invalid Solana wallet address"])
       st).
Proof.
  intros Hkey.
  exact (calculateGains_invalid_address w now walletAddress st message Hkey).
Qed.

(** X12.  Once the address is accepted and the chain returns the
    holdings, [calculateGains] returns a report, whatever the price
    sources, the signals and the file system do; the results, read as
    mint and amount, are taken from the holdings in their order, at most
    one per holding. *)
Theorem calculateGains_report_from_holdings
    (w : World) (now : Z) (walletAddress : string) (st : State)
    (publicKey : string) (tokenAccounts : list TokenAccount) :
  PublicKey w walletAddress = Returns publicKey ->
  getParsedTokenAccountsByOwner w publicKey = Returns tokenAccounts ->
  exists results,
    fst (calculateGains w now walletAddress st) = Returns results
    /\ sublist (map (fun r => (token r, amount r)) results)
               (map (fun account => (mint account, uiAmount account)) tokenAccounts)
    /\ (length results <= length tokenAccounts)%nat.
Proof.
  intros Hkey Hrpc.
  destruct (calculateGains_report w now walletAddress st publicKey tokenAccounts
              Hkey Hrpc) as (gainResults & st' & -> & Hbuilt).
  eexists. split; [reflexivity |].
  assert (Hsub : sublist
            (map (fun r => (token r, amount r))
                 (List.filter (fun result => gt0 (totalValue result)) gainResults))
            (map (fun account => (mint account, uiAmount account)) tokenAccounts)).
  { rewrite <- (built_from_holdings tokenAccounts gainResults Hbuilt).
    apply sublist_map_filter. }
  split; [exact Hsub |].
  apply sublist_length in Hsub. now rewrite !length_map in Hsub.
Qed.

(** X13.  For a wallet that holds no token account, [calculateGains]
    returns the empty report: it makes the one request to the chain, logs
    the completion, and asks no price source and no signal. *)
Theorem calculateGains_no_holdings
    (w : World) (now : Z) (walletAddress : string) (st : State) (publicKey : string) :
  PublicKey w walletAddress = Returns publicKey ->
  getParsedTokenAccountsByOwner w publicKey = Returns [] ->
  calculateGains w now walletAddress st
  = (Returns [],
     with_trace
       (trace st
        ++ [GetParsedTokenAccountsByOwner publicKey;
            Log info ("Calculated gains for wallet " +:+ walletAddress)])
       st).
Proof.
  intros Hkey Hrpc.
  unfold calculateGains, try_catch, bind at 1, _validateWalletAddress, try_catch, lift.
  rewrite Hkey. unfold bind at 1, call. rewrite Hrpc.
  cbn. now rewrite <- app_assoc.
Qed.

(** X14.  [calculateGains] keeps the price cache free of prices that are
    not above zero, however it ends; and from such a cache, every result
    it returns has a price above zero. *)
Theorem calculateGains_prices_positive
    (w : World) (now : Z) (walletAddress : string) (st : State) :
  prices_positive st ->
  prices_positive (snd (calculateGains w now walletAddress st))
  /\ forall results,
       fst (calculateGains w now walletAddress st) = Returns results ->
       forall r, In r results -> gt0 (currentPrice r) = true.
Proof.
  intros Hinv.
  destruct (PublicKey w walletAddress) as [publicKey | m] eqn:Hkey.
  - destruct (getParsedTokenAccountsByOwner w publicKey) as [tokenAccounts | m] eqn:Hrpc.
    + destruct (calculateGains_report_invariant w now walletAddress st publicKey
                  tokenAccounts Hkey Hrpc Hinv) as (gainResults & st' & -> & Hbuilt & Hinv').
      cbn [fst snd]. split; [exact Hinv' |].
      intros results [= <-] r Hr.
      apply filter_In in Hr. destruct Hr as [Hin Hpos].
      destruct (Forall2_In_r _ _ _ _ Hbuilt Hin)
        as (account & _ & (_ & _ & Htotal & _) & [Hzero | Hgt]).
      * change (gt0 (totalValue r) = true) in Hpos.
        rewrite Htotal, Hzero, mul_zero_not_gt0 in Hpos. discriminate.
      * exact Hgt.
    + rewrite (calculateGains_fetch_failure w now walletAddress st publicKey m Hkey Hrpc).
      cbn [fst snd]. split; [exact Hinv | discriminate].
  - rewrite (calculateGains_invalid_address w now walletAddress st m Hkey).
    cbn [fst snd]. split; [exact Hinv | discriminate].
Qed.

(** ** The report does not depend on the signals *)

Lemma bind_returns {A B} (m : M A) (k : A -> M B) st a st' :
  m st = (Returns a, st') -> bind m k st = k a st'.
Proof. unfold bind. now intros ->. Qed.

Lemma async_settles {A} (m : M A) st o st' :
  m st = (o, st') -> async m st = (Returns (promise o), st').
Proof. unfold async. now intros ->. Qed.

(** A run of [calculateGains] past the request to the chain, in terms of
    its two passes over the holdings. *)
Lemma calculateGains_passes w now walletAddress st publicKey tokenAccounts
    sa promises sb :
  PublicKey w walletAddress = Returns publicKey ->
  getParsedTokenAccountsByOwner w publicKey = Returns tokenAccounts ->
  Array_filter ToBoolean_object
    (fun account => async (_isTradableMemeToken w now (mint account))) tokenAccounts
    (with_trace (trace st ++ [GetParsedTokenAccountsByOwner publicKey]) st)
  = (Returns tokenAccounts, sa) ->
  Array_map (fun account => async (gain_of w now walletAddress account)) tokenAccounts sa
  = (Returns promises, sb) ->
  fst (calculateGains w now walletAddress st)
  = match Promise_all promises with
    | Returns gainResults =>
        Returns (List.filter (fun result => gt0 (totalValue result)) gainResults)
    | Throws message => Throws ("Wallet gains calculation failed: " +:+ message)
    end.
Proof.
  intros Hkey Hrpc Hfilter Hmap.
  unfold calculateGains, try_catch, bind at 1, _validateWalletAddress, try_catch, lift.
  rewrite Hkey. unfold bind at 1, call. rewrite Hrpc.
  rewrite (bind_returns _ _ _ _ _ Hfilter).
  rewrite (bind_returns _ _ _ _ _ Hmap).
  unfold bind at 1.
  destruct (Promise_all promises) as [gainResults | message]; reflexivity.
Qed.

Section SameButSignals.

Variables (w1 w2 : World).
Hypothesis Hsame : same_but_signals w1 w2.

Lemma answer_same mintAddress s : answer w1 mintAddress s = answer w2 mintAddress s.
Proof.
  destruct Hsame as (_ & _ & _ & Hquote & _).
  unfold answer. now rewrite Hquote.
Qed.

Lemma getTokenPrice_same now mintAddress st1 st2 :
  same_store st1 st2 ->
  exists p st1' st2',
    _getTokenPrice w1 now mintAddress st1 = (Returns p, st1')
    /\ _getTokenPrice w2 now mintAddress st2 = (Returns p, st2')
    /\ same_store st1' st2'.
Proof.
  intros [Hcache Hfile].
  assert (Hloop : forall c,
    exists p st1' st2',
      try_sources w1 now mintAddress (priceSources w1) (with_priceCache c st1)
      = (Returns p, st1')
      /\ try_sources w2 now mintAddress (priceSources w2) (with_priceCache c st2)
         = (Returns p, st2')
      /\ same_store st1' st2').
  { intros c. rewrite !priceSources_order.
    destruct (try_sources_first_positive w1 now mintAddress source_order
                (with_priceCache c st1)) as (st1' & -> & Hc1 & _ & Hf1).
    destruct (try_sources_first_positive w2 now mintAddress source_order
                (with_priceCache c st2)) as (st2' & -> & Hc2 & _ & Hf2).
    assert (Hans : map (answer w1 mintAddress) source_order
                   = map (answer w2 mintAddress) source_order).
    { apply map_ext. intros s. apply answer_same. }
    rewrite Hans in *.
    eexists _, st1', st2'. split; [reflexivity |]. split; [reflexivity |].
    destruct Hsame as (Httl & _).
    split.
    - rewrite Hc1, Hc2. unfold cache_after. now rewrite Httl.
    - rewrite Hf1, Hf2. exact Hfile. }
  unfold _getTokenPrice, bind, priceCache_get. rewrite <- Hcache.
  destruct (NodeCache.get now mintAddress (priceCache st1)) as [[p |] c].
  - destruct (ToBoolean p); [| apply Hloop].
    eexists _, _, _. split; [reflexivity |]. split; [reflexivity |].
    split; [reflexivity | exact Hfile].
  - apply Hloop.
Qed.

Lemma trackCostBasis_same walletAddress mintAddress st1 st2 :
  same_store st1 st2 ->
  exists c st1' st2',
    _trackCostBasis w1 walletAddress mintAddress st1 = (Returns c, st1')
    /\ _trackCostBasis w2 walletAddress mintAddress st2 = (Returns c, st2')
    /\ same_store st1' st2'.
Proof.
  intros [Hcache Hfile].
  destruct Hsame as (_ & _ & _ & _ & Hparse & Hwrite).
  run_store. rewrite <- Hfile, <- Hparse, <- Hwrite.
  destruct (costBasisFile st1) as [content |] eqn:Hf1.
  - destruct (JSON_parse w1 content) as [[| entries] |].
    + eexists _, _, _. split; [reflexivity |]. split; [reflexivity |].
      split; [exact Hcache | cbn; congruence].
    + eexists _, _, _. split; [reflexivity |]. split; [reflexivity |].
      split; [exact Hcache | congruence].
    + destruct (writeFile_result w1 "{}");
        eexists _, _, _; (split; [reflexivity |]); (split; [reflexivity |]);
        (split; [exact Hcache | cbn; congruence]).
  - destruct (writeFile_result w1 "{}");
      eexists _, _, _; (split; [reflexivity |]); (split; [reflexivity |]);
      (split; [exact Hcache | cbn; congruence]).
Qed.

Lemma gain_of_same now walletAddress account st1 st2 :
  same_store st1 st2 ->
  exists r st1' st2',
    gain_of w1 now walletAddress account st1 = (Returns r, st1')
    /\ gain_of w2 now walletAddress account st2 = (Returns r, st2')
    /\ same_store st1' st2'.
Proof.
  intros Hst. unfold gain_of, bind.
  destruct (getTokenPrice_same now (mint account) st1 st2 Hst)
    as (p & sa & sb & -> & -> & Hab).
  destruct (trackCostBasis_same walletAddress (mint account) sa sb Hab)
    as (c & sa' & sb' & -> & -> & Hab').
  eexists _, _, _. split; [reflexivity |]. split; [reflexivity | exact Hab'].
Qed.

Lemma gains_pass_same now walletAddress (xs : list TokenAccount) st1 st2 :
  same_store st1 st2 ->
  exists promises st1' st2',
    Array_map (fun account => async (gain_of w1 now walletAddress account)) xs st1
    = (Returns promises, st1')
    /\ Array_map (fun account => async (gain_of w2 now walletAddress account)) xs st2
       = (Returns promises, st2')
    /\ same_store st1' st2'.
Proof.
  revert st1 st2. induction xs as [| x xs IH]; intros st1 st2 Hst.
  - exists [], st1, st2. auto.
  - destruct (gain_of_same now walletAddress x st1 st2 Hst)
      as (r & sa & sb & H1 & H2 & Hab).
    destruct (IH sa sb Hab) as (ps & sa' & sb' & H1' & H2' & Hab').
    exists (promise (Returns r) :: ps), sa', sb'.
    split; [| split; [| exact Hab']]; cbn [Array_map].
    + rewrite (bind_returns _ _ _ _ _ (async_settles _ _ _ _ H1)).
      now rewrite (bind_returns _ _ _ _ _ H1').
    + rewrite (bind_returns _ _ _ _ _ (async_settles _ _ _ _ H2)).
      now rewrite (bind_returns _ _ _ _ _ H2').
Qed.

Lemma calculateGains_same now walletAddress st1 st2 :
  same_store st1 st2 ->
  fst (calculateGains w1 now walletAddress st1)
  = fst (calculateGains w2 now walletAddress st2).
Proof.
  intros Hst.
  pose proof Hsame as (_ & Hkey & Hrpc & _).
  destruct (PublicKey w1 walletAddress) as [publicKey | m] eqn:Hk1.
  - assert (Hk2 : PublicKey w2 walletAddress = Returns publicKey)
      by (now rewrite <- Hkey).
    destruct (getParsedTokenAccountsByOwner w1 publicKey) as [tokenAccounts | m] eqn:Hr1.
    + assert (Hr2 : getParsedTokenAccountsByOwner w2 publicKey = Returns tokenAccounts)
        by (now rewrite <- Hrpc).
      destruct (eligibility_pass w1 now tokenAccounts
                  (with_trace (trace st1 ++ [GetParsedTokenAccountsByOwner publicKey]) st1))
        as (sa & Hfa & Hpa & Hca).
      destruct (eligibility_pass w2 now tokenAccounts
                  (with_trace (trace st2 ++ [GetParsedTokenAccountsByOwner publicKey]) st2))
        as (sb & Hfb & Hpb & Hcb).
      assert (Hab : same_store sa sb).
      { destruct Hst as [Hc Hf]. split; cbn in *; congruence. }
      destruct (gains_pass_same now walletAddress tokenAccounts sa sb Hab)
        as (ps & sa' & sb' & Hma & Hmb & _).
      rewrite (calculateGains_passes w1 now walletAddress st1 publicKey tokenAccounts
                 sa ps sa' Hk1 Hr1 Hfa Hma).
      now rewrite (calculateGains_passes w2 now walletAddress st2 publicKey tokenAccounts
                     sb ps sb' Hk2 Hr2 Hfb Hmb).
    + assert (Hr2 : getParsedTokenAccountsByOwner w2 publicKey = Throws m)
        by (now rewrite <- Hrpc).
      rewrite (calculateGains_fetch_failure w1 now walletAddress st1 publicKey m Hk1 Hr1).
      now rewrite (calculateGains_fetch_failure w2 now walletAddress st2 publicKey m Hk2 Hr2).
  - assert (Hk2 : PublicKey w2 walletAddress = Throws m) by (now rewrite <- Hkey).
    rewrite (calculateGains_invalid_address w1 now walletAddress st1 m Hk1).
    now rewrite (calculateGains_invalid_address w2 now walletAddress st2 m Hk2).
Qed.

End SameButSignals.

(** X15.  What [calculateGains] returns or throws does not depend on the
    signal methods, nor on the metadata cache: two worlds that differ at
    most in their signals, run from two states with the same price cache
    and the same cost-basis file, give the same report or the same
    error. *)
Theorem calculateGains_ignores_signals
    (w1 w2 : World) (now : Z) (walletAddress : string) (st1 st2 : State) :
  same_but_signals w1 w2 ->
  same_store st1 st2 ->
  fst (calculateGains w1 now walletAddress st1)
  = fst (calculateGains w2 now walletAddress st2).
Proof. intros Hw Hst. now apply calculateGains_same. Qed.

(** ** The handler, beyond the short address *)

Lemma long_address_passes address :
  (32 <= String.length address)%nat ->
  not_string address || (String.length address <? 32)%nat = false.
Proof.
  intros Hlong. apply orb_false_iff. split.
  - destruct address; [cbn in Hlong; lia | reflexivity].
  - apply Nat.ltb_ge. exact Hlong.
Qed.

(** The handler on an address of 32 characters or more. *)
Lemma getWalletGains_long (service : string -> M (list GainResult)) address st :
  (32 <= String.length address)%nat ->
  getWalletGains service address st
  = match service address (with_trace (trace st ++ [CalculateGains address]) st) with
    | (Returns results, st') => (Returns (Json 200 (Success true results)), st')
    | (Throws message, st') => (Returns (Next message), st')
    end.
Proof.
  intros Hlong. unfold getWalletGains, try_catch.
  rewrite (long_address_passes address Hlong).
  unfold bind, emit.
  destruct (service address _) as [[results | message] st']; reflexivity.
Qed.

(** X16.  For an address of 32 characters or more, the handler calls
    [calculateGains] once, with the address; when the call returns, the
    handler answers 200 with [{ success: true, data: results }]. *)
Theorem getWalletGains_success
    (service : string -> M (list GainResult)) (address : string) (st st' : State)
    (results : list GainResult) :
  (32 <= String.length address)%nat ->
  service address (with_trace (trace st ++ [CalculateGains address]) st)
  = (Returns results, st') ->
  getWalletGains service address st
  = (Returns (Json 200 (Success true results)), st').
Proof.
  intros Hlong Hrun. now rewrite (getWalletGains_long service address st Hlong), Hrun.
Qed.

(** X17.  When the call to [calculateGains] throws, the handler sends no
    response of its own: it hands the error, message unchanged, to
    [next], and does not throw. *)
Theorem getWalletGains_forwards_error
    (service : string -> M (list GainResult)) (address : string) (st st' : State)
    (message : string) :
  (32 <= String.length address)%nat ->
  service address (with_trace (trace st ++ [CalculateGains address]) st)
  = (Throws message, st') ->
  getWalletGains service address st = (Returns (Next message), st').
Proof.
  intros Hlong Hrun. now rewrite (getWalletGains_long service address st Hlong), Hrun.
Qed.

(** X18.  An address of 32 characters or more that [PublicKey] rejects
    passes the handler's own check: the tracker is called, and the
    handler does not answer 400 but hands "Wallet gains calculation
    failed: Invalid Solana wallet address" to [next]; no request goes to
    the chain. *)
Theorem getWalletGains_long_invalid_address
    (w : World) (now : Z) (address : string) (st : State) (message : string) :
  (32 <= String.length address)%nat ->
  PublicKey w address = Throws message ->
  getWalletGains (calculateGains w now) address st
  = (Returns (Next "Wallet gains calculation failed: Invalid Solana wallet address"),
     with_trace
       (trace st
        ++ [CalculateGains address;
            Log error ("Invalid wallet address: " +:+ address);
            Log error "Gains calculation error: Invalid Solana wallet address"])
       st).
Proof.
  intros Hlong Hkey.
  rewrite (getWalletGains_long (calculateGains w now) address st Hlong).
  rewrite (calculateGains_invalid_address w now address _ message Hkey).
  cbn. now rewrite <- app_assoc.
Qed.

(** X19.  With the tracker behind it, the handler never throws, and its
    reply is one of three: 400 with the fixed body, for an address
    shorter than 32 characters; 200 with [success: true] and results
    that all have a [totalValue] above zero; or an error handed to [next]
    whose message starts with "Wallet gains calculation failed: ". *)
Theorem getWalletGains_replies
    (w : World) (now : Z) (address : string) (st : State) :
  exists reply st',
    getWalletGains (calculateGains w now) address st = (Returns reply, st')
    /\ reply_kind address reply.
Proof.
  destruct (Nat.lt_ge_cases (String.length address) 32) as [Hshort | Hlong].
  - exists (Json 400 (Failure false "Invalid wallet address")), st.
    split; [| now cbn].
    unfold getWalletGains, try_catch.
    assert (Htest : not_string address || (String.length address <? 32)%nat = true).
    { apply orb_true_iff. right. now apply Nat.ltb_lt. }
    now rewrite Htest.
  - rewrite (getWalletGains_long (calculateGains w now) address st Hlong).
    set (st0 := with_trace (trace st ++ [CalculateGains address]) st).
    destruct (PublicKey w address) as [publicKey | m] eqn:Hkey.
    + destruct (getParsedTokenAccountsByOwner w publicKey) as [tokenAccounts | m] eqn:Hrpc.
      * destruct (calculateGains_report w now address st0 publicKey tokenAccounts
                    Hkey Hrpc) as (gainResults & st' & -> & _).
        eexists _, _. split; [reflexivity |]. cbn.
        repeat split; try assumption.
        apply Forall_forall. intros r Hr.
        apply list_elem_of_In, filter_In in Hr. now destruct Hr.
      * rewrite (calculateGains_fetch_failure w now address st0 publicKey m Hkey Hrpc).
        eexists _, _. split; [reflexivity |]. cbn. split; [exact Hlong | now exists m].
    + rewrite (calculateGains_invalid_address w now address st0 m Hkey).
      eexists _, _. split; [reflexivity |]. cbn. split; [exact Hlong | now eexists].
Qed.

(** ** The further properties at concrete inputs *)

Lemma prices_positive_priced : prices_positive priced.
Proof.
  intros key e Hkey. cbn in Hkey.
  apply lookup_singleton_Some in Hkey. destruct Hkey as [_ <-]. reflexivity.
Qed.

Lemma prices_positive_fresh : prices_positive fresh.
Proof. intros key e Hkey. cbn in Hkey. now rewrite lookup_empty in Hkey. Qed.

(** X1 at a cache that holds 2 for MintA, asked about MintB. *)
Lemma getTokenPrice_keeps_prices_positive_witness :
  exists p st',
    _getTokenPrice demo 2000 "MintB" priced = (Returns p, st')
    /\ (p = 0%float \/ gt0 p = true)
    /\ prices_positive st'.
Proof.
  apply (getTokenPrice_keeps_prices_positive demo 2000 "MintB" priced).
  exact prices_positive_priced.
Defined.

(** X2 at MintA in [demo], asked at 1000 and again at 2000. *)
Lemma getTokenPrice_twice_same_price_witness :
  fst (_getTokenPrice demo 2000 "MintA" (snd (_getTokenPrice demo 1000 "MintA" fresh)))
  = fst (_getTokenPrice demo 1000 "MintA" fresh).
Proof.
  apply (getTokenPrice_twice_same_price demo 1000 2000 "MintA" fresh).
  - reflexivity.
  - vm_compute. discriminate.
Defined.

(** X3 at the entry of [priced], which expires at 301000, read at 400000. *)
Lemma getTokenPrice_expired_as_absent_witness :
  _getTokenPrice demo 400000 "MintA" priced
  = _getTokenPrice demo 400000 "MintA"
      (with_priceCache (delete "MintA" (priceCache priced)) priced).
Proof.
  apply (getTokenPrice_expired_as_absent demo 400000 "MintA" priced
           (NodeCache.Entry 2%float 301000)).
  - reflexivity.
  - cbn. lia.
  - cbn. lia.
Defined.

(** X5 at MintA with the signals as shipped. *)
Lemma isTradableMemeToken_with_placeholders_witness :
  _isTradableMemeToken shipped 1000 "MintA" fresh
  = (Returns false,
     with_tokenMetadataCache
       (<["MintA" := NodeCache.Entry false
                       (NodeCache.livetime 1000 (cacheTTL_metadata shipped))]>
          (tokenMetadataCache fresh))
       (with_trace
          (trace fresh ++ [Check TokenVolume "MintA";
                           Check SocialTraction "MintA";
                           Check TokenAge "MintA"]) fresh)).
Proof.
  apply (isTradableMemeToken_with_placeholders shipped 1000 "MintA" fresh);
    reflexivity.
Defined.

(** X7 at the one entry of the store file of [fresh]. *)
Lemma trackCostBasis_returns_record_witness :
  _trackCostBasis demo wallet "MintA" fresh = (Returns 5%float, fresh).
Proof.
  apply (trackCostBasis_returns_record demo wallet "MintA" fresh 5%float);
    reflexivity.
Defined.

(** X9 at a store file that is missing and cannot be created. *)
Lemma trackCostBasis_write_failure_witness :
  _trackCostBasis read_only wallet "MintA" no_store
  = (Returns 0%float,
     with_trace
       (trace no_store
        ++ [Log error ("Cost basis tracking error: " +:+ "EACCES: permission denied")])
       no_store).
Proof.
  apply (trackCostBasis_write_failure read_only wallet "MintA" no_store
           "EACCES: permission denied").
  - exact I.
  - reflexivity.
Defined.

(** X10 at a store file that is missing and gets created. *)
Lemma trackCostBasis_twice_same_answer_witness :
  fst (_trackCostBasis demo wallet "MintA"
         (snd (_trackCostBasis demo wallet "MintA" no_store)))
  = fst (_trackCostBasis demo wallet "MintA" no_store).
Proof.
  apply (trackCostBasis_twice_same_answer demo wallet "MintA" no_store).
  reflexivity.
Defined.

(** X11 at thirty-two zeros. *)
Lemma calculateGains_rejected_address_witness :
  calculateGains demo 1000 bad_address fresh
  = (Throws "Wallet gains calculation failed: Invalid Solana wallet address",
     with_trace
       (trace fresh
        ++ [Log error ("Invalid wallet address: " +:+ bad_address);
            Log error "Gains calculation error: Invalid Solana wallet address"])
       fresh).
Proof.
  apply (calculateGains_rejected_address demo 1000 bad_address fresh
           "Invalid public key input").
  reflexivity.
Defined.

(** X12 at the two holdings of [demo]. *)
Lemma calculateGains_report_from_holdings_witness :
  exists results,
    fst (calculateGains demo 1000 wallet fresh) = Returns results
    /\ sublist (map (fun r => (token r, amount r)) results)
               (map (fun account => (mint account, uiAmount account)) holdings)
    /\ (length results <= length holdings)%nat.
Proof.
  apply (calculateGains_report_from_holdings demo 1000 wallet fresh wallet holdings);
    reflexivity.
Defined.

(** X13 at a wallet without token accounts. *)
Lemma calculateGains_no_holdings_witness :
  calculateGains empty_wallet 1000 wallet fresh
  = (Returns [],
     with_trace
       (trace fresh
        ++ [GetParsedTokenAccountsByOwner wallet;
            Log info ("Calculated gains for wallet " +:+ wallet)])
       fresh).
Proof.
  apply (calculateGains_no_holdings empty_wallet 1000 wallet fresh wallet);
    reflexivity.
Defined.

(** X14 from empty caches. *)
Lemma calculateGains_prices_positive_witness :
  prices_positive (snd (calculateGains demo 1000 wallet fresh))
  /\ forall results,
       fst (calculateGains demo 1000 wallet fresh) = Returns results ->
       forall r, In r results -> gt0 (currentPrice r) = true.
Proof.
  apply (calculateGains_prices_positive demo 1000 wallet fresh).
  exact prices_positive_fresh.
Defined.

(** X15 between [demo] and the world with the signals as shipped. *)
Lemma calculateGains_ignores_signals_witness :
  fst (calculateGains demo 1000 wallet fresh)
  = fst (calculateGains shipped 1000 wallet fresh).
Proof.
  apply (calculateGains_ignores_signals demo shipped 1000 wallet fresh fresh).
  - repeat split.
  - split; reflexivity.
Defined.

(** X16 with the tracker of [demo] behind the handler. *)
Lemma getWalletGains_success_witness :
  getWalletGains (calculateGains demo 1000) wallet fresh
  = (Returns (Json 200 (Success true [gainA; gainB])),
     snd (calculateGains demo 1000 wallet
            (with_trace (trace fresh ++ [CalculateGains wallet]) fresh))).
Proof.
  apply (getWalletGains_success (calculateGains demo 1000) wallet fresh).
  - cbn. lia.
  - vm_compute. reflexivity.
Defined.

(** X17 with the chain endpoint down. *)
Lemma getWalletGains_forwards_error_witness :
  getWalletGains (calculateGains rpc_down 1000) wallet fresh
  = (Returns (Next "Wallet gains calculation failed: connect ECONNREFUSED 127.0.0.1:8899"),
     snd (calculateGains rpc_down 1000 wallet
            (with_trace (trace fresh ++ [CalculateGains wallet]) fresh))).
Proof.
  apply (getWalletGains_forwards_error (calculateGains rpc_down 1000) wallet fresh).
  - cbn. lia.
  - vm_compute. reflexivity.
Defined.

(** X18 at thirty-two zeros. *)
Lemma getWalletGains_long_invalid_address_witness :
  getWalletGains (calculateGains demo 1000) bad_address fresh
  = (Returns (Next "Wallet gains calculation failed: Invalid Solana wallet address"),
     with_trace
       (trace fresh
        ++ [CalculateGains bad_address;
            Log error ("Invalid wallet address: " +:+ bad_address);
            Log error "Gains calculation error: Invalid Solana wallet address"])
       fresh).
Proof.
  apply (getWalletGains_long_invalid_address demo 1000 bad_address fresh
           "Invalid public key input").
  - cbn. lia.
  - reflexivity.
Defined.
